(** * xml-reader: cursor based XML reader

    A shallow embedding of [xml-reader.c] and the properties of its cursor
    engine.  The parsed document is libxml2's node tree; the reader keeps a
    handful of pointers into it ([parent], [node_cursor], [attr_cursor]), a
    signed [depth] counter, an error flag and two cached strings.

    Conventions of the embedding:
    - a node pointer is the path of child indices that leads from the
      document node to the node, innermost index first; [None] is [NULL];
    - a function whose C body may dereference an invalid pointer or overflow
      a [gint] returns [option]: [None] stands for undefined behaviour;
    - [g_warning] diagnostics and the [g_return_if_fail] type checks leave no
      trace in the reader and are not represented;
    - the file system and the parser are arguments of the two load
      functions. *)

From Stdlib Require Import List Ascii String ZArith Bool Lia.
Import ListNotations.
Local Open Scope string_scope.
Local Open Scope Z_scope.

(** ** Undefined-behaviour monad *)

Definition bind {A B : Type} (m : option A) (k : A -> option B) : option B :=
  match m with
  | Some a => k a
  | None => None
  end.

Notation "x <- m ;; k" := (bind m (fun x => k))
  (at level 61, m at next level, right associativity).

(** ** glib: [gint] and [GError] *)

Definition G_MAXINT : Z := 2147483647.
Definition G_MININT : Z := -2147483648.

(** Signed arithmetic on [gint]: a result outside the type is undefined. *)
Definition gint_result (z : Z) : option Z :=
  if (G_MININT <=? z) && (z <=? G_MAXINT) then Some z else None.

(** Modelled from the spec: the enumeration [XmlReaderError] is declared in
    [xml-reader.h], which is not among the sources.  The specification has
    two error kinds, a parse error and an unknown node; they carry the names
    [xml-reader.c] uses for them. *)
Inductive XmlReaderError : Type :=
  | XML_READER_ERROR_INVALID
  | XML_READER_ERROR_UNKNOWN_NODE.

Record GError : Type := mkGError {
  domain : string;
  code : XmlReaderError;
  message : string
}.

(** A [GError **] argument: [None] is a [NULL] location, [Some None] an empty
    location, [Some (Some e)] a location that already holds [e]. *)
Definition GErrorLoc : Type := option (option GError).

(** The error domain: the quark is represented by its string;
    [XML_READER_ERROR] is the header's name for it. *)
Definition xml_reader_error_quark : string := "xml-reader-error-quark".
Definition XML_READER_ERROR : string := xml_reader_error_quark.

(** What glib's printf prints for a format when no argument follows it, as
    in the [g_set_error] calls of the reader: ordinary characters are copied
    and [%%] prints [%]; any other conversion reads an argument that is not
    there. *)
Fixpoint format_without_arguments (format : string) : option string :=
  match format with
  | EmptyString => Some EmptyString
  | String "%"%char (String "%"%char rest) =>
      msg <- format_without_arguments rest ;; Some (String "%"%char msg)
  | String "%"%char _ => None
  | String ch rest =>
      msg <- format_without_arguments rest ;; Some (String ch msg)
  end.

(** A string without the character [%]. *)
Fixpoint no_percent (s : string) : bool :=
  match s with
  | EmptyString => true
  | String ch rest => negb (Ascii.eqb ch "%"%char) && no_percent rest
  end.

(** [g_set_error] with a format and no argument: a [NULL] location is
    ignored; otherwise the message is formatted and the new error is stored
    in an empty location, while an occupied one is left as it is (glib only
    warns). *)
Definition g_set_error (error : GErrorLoc) (dom : string)
    (c : XmlReaderError) (format : string) : option GErrorLoc :=
  match error with
  | None => Some None
  | Some slot =>
      msg <- format_without_arguments format ;;
      Some (Some (match slot with
                  | None => Some (mkGError dom c msg)
                  | Some e => Some e
                  end))
  end.

(** ** libxml2: the document tree *)

Inductive xmlElementType : Type :=
  | XML_ELEMENT_NODE
  | XML_ATTRIBUTE_NODE
  | XML_TEXT_NODE
  | XML_CDATA_SECTION_NODE
  | XML_ENTITY_REF_NODE
  | XML_PI_NODE
  | XML_COMMENT_NODE
  | XML_DOCUMENT_NODE
  | XML_DTD_NODE.

Definition xmlElementType_eqb (a b : xmlElementType) : bool :=
  match a, b with
  | XML_ELEMENT_NODE, XML_ELEMENT_NODE
  | XML_ATTRIBUTE_NODE, XML_ATTRIBUTE_NODE
  | XML_TEXT_NODE, XML_TEXT_NODE
  | XML_CDATA_SECTION_NODE, XML_CDATA_SECTION_NODE
  | XML_ENTITY_REF_NODE, XML_ENTITY_REF_NODE
  | XML_PI_NODE, XML_PI_NODE
  | XML_COMMENT_NODE, XML_COMMENT_NODE
  | XML_DOCUMENT_NODE, XML_DOCUMENT_NODE
  | XML_DTD_NODE, XML_DTD_NODE => true
  | _, _ => false
  end.

(** An attribute: its name and its value with the entities resolved. *)
Record xmlAttr : Type := mkAttr {
  attr_name : string;
  attr_content : string
}.

(** A node with its attribute list ([properties]) and its child list
    ([children], the chain the C code walks through [next]).  The [name] and
    [content] fields may be [NULL].  Only element nodes have a [properties]
    field in libxml2: what the list holds for another kind of node, the
    document included, says nothing about what the attribute calls read
    there. *)
#[local] Unset Elimination Schemes.
Inductive xmlNode : Type := mkNode {
  type : xmlElementType;
  name : option string;
  content : option string;
  properties : list xmlAttr;
  children : list xmlNode
}.
#[local] Set Elimination Schemes.

(** A document is its document node: libxml2 gives [xmlDoc] the header of
    [xmlNode], links the top-level nodes as its children and makes it their
    [parent]. *)
Definition xmlDoc : Type := xmlNode.

Definition xmlNodePtr : Type := option (list nat).

(** A pointer to the attribute at a position of the node at a path. *)
Definition xmlAttrPtr : Type := option (list nat * nat).

(** Dereferencing a path; [None] when it leads nowhere. *)
Fixpoint node_at (doc : xmlDoc) (p : list nat) : option xmlNode :=
  match p with
  | [] => Some doc
  | i :: q => n <- node_at doc q ;; nth_error (children n) i
  end.

(** [doc->xmlRootNode], libxml2's name for [doc->children]: the first
    top-level node. *)
Definition xmlRootNode (doc : xmlDoc) : xmlNodePtr :=
  match children doc with
  | [] => None
  | _ :: _ => Some [0%nat]
  end.

(** [node->parent]: the document node has none. *)
Definition node_parent (p : list nat) : xmlNodePtr :=
  match p with
  | [] => None
  | _ :: q => Some q
  end.

(** [node->properties] as a pointer. *)
Definition properties_ptr (p : list nat) (n : xmlNode) : xmlAttrPtr :=
  match properties n with
  | [] => None
  | _ :: _ => Some (p, 0%nat)
  end.

Definition xmlNodeIsText (n : xmlNode) : bool :=
  xmlElementType_eqb (type n) XML_TEXT_NODE.

(** [xmlNodeGetContent] on a text node: a copy of its content. *)
Definition xmlNodeGetContent (n : xmlNode) : option string := content n.

(** [xmlGetProp]: the value of the first attribute of the node that carries
    the name. *)
Fixpoint xmlGetProp_list (l : list xmlAttr) (nm : string) : option string :=
  match l with
  | [] => None
  | a :: rest =>
      if String.eqb (attr_name a) nm then Some (attr_content a)
      else xmlGetProp_list rest nm
  end.

Definition xmlGetProp (n : xmlNode) (nm : string) : option string :=
  xmlGetProp_list (properties n) nm.

(** ** The reader *)

Record XmlReaderPrivate : Type := mkPriv {
  is_filename : bool;
  filename : option string;
  error_state : bool;
  last_error : XmlReaderError;
  depth : Z;
  current_doc : option xmlDoc;
  parent : xmlNodePtr;
  node_cursor : xmlNodePtr;
  attr_cursor : xmlAttrPtr;
  cursor_value : option string;
  attr_value : option string
}.

(** [xml_reader_clear]: both cached strings are released and reset.  The
    document is released too, but the [current_doc] field is not reset: the
    one caller that goes on using the reader assigns it next. *)
Definition xml_reader_clear (reader : XmlReaderPrivate) : XmlReaderPrivate :=
  {| is_filename := is_filename reader;
     filename := filename reader;
     error_state := error_state reader;
     last_error := last_error reader;
     depth := depth reader;
     current_doc := current_doc reader;
     parent := parent reader;
     node_cursor := node_cursor reader;
     attr_cursor := attr_cursor reader;
     cursor_value := None;
     attr_value := None |}.

Definition parse_error_message (reader : XmlReaderPrivate) : string :=
  if is_filename reader then
    "Unable to parse file `" ++
      match filename reader with Some f => f | None => "(null)" end ++ "'"
  else "Unable to parse XML buffer".

(** [xml_reader_load_from_data]; the parser [xmlReadMemory] is libxml2's and
    is taken as an argument. *)
Definition xml_reader_load_from_data (xmlReadMemory : string -> option xmlDoc)
    (reader : XmlReaderPrivate) (buffer : string) (error : GErrorLoc)
    : option (bool * GErrorLoc * XmlReaderPrivate) :=
  let reader := xml_reader_clear reader in
  match xmlReadMemory buffer with
  | None =>
      error' <- g_set_error error XML_READER_ERROR XML_READER_ERROR_INVALID
                  (parse_error_message reader) ;;
      Some
      (false,
       error',
       {| is_filename := is_filename reader;
          filename := filename reader;
          error_state := error_state reader;
          last_error := last_error reader;
          depth := depth reader;
          current_doc := None;
          parent := parent reader;
          node_cursor := node_cursor reader;
          attr_cursor := attr_cursor reader;
          cursor_value := cursor_value reader;
          attr_value := attr_value reader |})
  | Some doc =>
      Some
      (true, error,
       {| is_filename := is_filename reader;
          filename := filename reader;
          error_state := error_state reader;
          last_error := last_error reader;
          depth := 0;
          current_doc := Some doc;
          parent := xmlRootNode doc;
          node_cursor := None;
          attr_cursor := None;
          cursor_value := cursor_value reader;
          attr_value := attr_value reader |})
  end.

(** [xml_reader_get_error]: the flag, and the location as the call leaves
    it.  The format is a literal without conversion, so the [g_set_error]
    call always returns. *)
Definition xml_reader_get_error (reader : XmlReaderPrivate)
    (error : GErrorLoc) : bool * GErrorLoc :=
  (error_state reader,
   match error with
   | Some None =>
       match g_set_error error XML_READER_ERROR (last_error reader)
               "XmlReader error" with
       | Some filled => filled
       | None => error
       end
   | _ => error
   end).

(** The loop of [xml_reader_read_start_element] over a sibling chain: the
    position and the node of the first element with the name. *)
Fixpoint find_element (element_name : string) (siblings : list xmlNode)
    (i : nat) : option (nat * xmlNode) :=
  match siblings with
  | [] => None
  | node :: rest =>
      if xmlElementType_eqb (type node) XML_ELEMENT_NODE
         && match name node with
            | Some nm => String.eqb nm element_name
            | None => false
            end
      then Some (i, node)
      else find_element element_name rest (S i)
  end.

(** The chain starts at the document's first top-level node when there is no
    cursor, at the cursor's first child otherwise: in both cases it is the
    child list of one node, the document node or the cursor. *)
Definition scan_base (reader : XmlReaderPrivate) : list nat :=
  match node_cursor reader with
  | None => []
  | Some c => c
  end.

Definition xml_reader_read_start_element (reader : XmlReaderPrivate)
    (element_name : string) : option (bool * XmlReaderPrivate) :=
  if fst (xml_reader_get_error reader None) then Some (false, reader)
  else
    doc <- current_doc reader ;;
    holder <- node_at doc (scan_base reader) ;;
    match find_element element_name (children holder) 0 with
    | Some (i, node) =>
        d <- gint_result (depth reader + 1) ;;
        Some (true,
          {| is_filename := is_filename reader;
             filename := filename reader;
             error_state := error_state reader;
             last_error := last_error reader;
             depth := d;
             current_doc := current_doc reader;
             parent := node_cursor reader;
             node_cursor := Some (i :: scan_base reader);
             attr_cursor := properties_ptr (i :: scan_base reader) node;
             cursor_value :=
               match children node with
               | child :: _ =>
                   if xmlNodeIsText child then xmlNodeGetContent child
                   else cursor_value reader
               | [] => cursor_value reader
               end;
             attr_value := None |})
    | None =>
        Some (false,
          {| is_filename := is_filename reader;
             filename := filename reader;
             error_state := true;
             last_error := XML_READER_ERROR_UNKNOWN_NODE;
             depth := depth reader;
             current_doc := current_doc reader;
             parent :=
               match node_cursor reader with
               | Some c => Some c
               | None => xmlRootNode doc
               end;
             node_cursor := None;
             attr_cursor := None;
             cursor_value := cursor_value reader;
             attr_value := attr_value reader |})
    end.

(** [xml_reader_read_end_element]. *)
Definition xml_reader_read_end_element (reader : XmlReaderPrivate)
    : option XmlReaderPrivate :=
  if fst (xml_reader_get_error reader None) then
    match parent reader with
    | None =>
        doc <- current_doc reader ;;
        Some
          {| is_filename := is_filename reader;
             filename := filename reader;
             error_state := false;
             last_error := last_error reader;
             depth := depth reader;
             current_doc := current_doc reader;
             parent := None;
             node_cursor := xmlRootNode doc;
             attr_cursor := attr_cursor reader;
             cursor_value := cursor_value reader;
             attr_value := attr_value reader |}
    | Some p =>
        doc <- current_doc reader ;;
        _ <- node_at doc p ;;
        Some
          {| is_filename := is_filename reader;
             filename := filename reader;
             error_state := false;
             last_error := last_error reader;
             depth := depth reader;
             current_doc := current_doc reader;
             parent := node_parent p;
             node_cursor := Some p;
             attr_cursor := attr_cursor reader;
             cursor_value := cursor_value reader;
             attr_value := attr_value reader |}
    end
  else
    match node_cursor reader with
    | None => Some reader
    | Some _ =>
        d <- gint_result (depth reader - 1) ;;
        doc <- current_doc reader ;;
        match parent reader with
        | Some p =>
            _ <- node_at doc p ;;
            Some
              {| is_filename := is_filename reader;
                 filename := filename reader;
                 error_state := error_state reader;
                 last_error := last_error reader;
                 depth := d;
                 current_doc := current_doc reader;
                 parent := node_parent p;
                 node_cursor := Some p;
                 attr_cursor := None;
                 cursor_value := None;
                 attr_value := None |}
        | None =>
            Some
              {| is_filename := is_filename reader;
                 filename := filename reader;
                 error_state := error_state reader;
                 last_error := last_error reader;
                 depth := d;
                 current_doc := current_doc reader;
                 parent := None;
                 node_cursor := xmlRootNode doc;
                 attr_cursor := None;
                 cursor_value := None;
                 attr_value := None |}
        end
    end.

(** [xml_reader_get_element_name]. *)
Definition xml_reader_get_element_name (reader : XmlReaderPrivate)
    : option (option string) :=
  if fst (xml_reader_get_error reader None) then Some None
  else
    match node_cursor reader with
    | Some c =>
        doc <- current_doc reader ;;
        n <- node_at doc c ;;
        Some (name n)
    | None => Some None
    end.

(** [xml_reader_get_element_value]. *)
Definition xml_reader_get_element_value (reader : XmlReaderPrivate)
    : option string :=
  if fst (xml_reader_get_error reader None) then None
  else cursor_value reader.

(** [xml_reader_has_attributes]. *)
Definition xml_reader_has_attributes (reader : XmlReaderPrivate)
    : option bool :=
  if fst (xml_reader_get_error reader None) then Some false
  else
    match node_cursor reader with
    | None => Some false
    | Some c =>
        doc <- current_doc reader ;;
        n <- node_at doc c ;;
        Some (match properties n with [] => false | _ :: _ => true end)
    end.

(** [xml_reader_count_attributes]: the count loop runs on a [gint]. *)
Fixpoint count_loop (l : list xmlAttr) (count : Z) : option Z :=
  match l with
  | [] => Some count
  | _ :: rest => c <- gint_result (count + 1) ;; count_loop rest c
  end.

Definition xml_reader_count_attributes (reader : XmlReaderPrivate)
    : option Z :=
  if fst (xml_reader_get_error reader None) then Some (-1)
  else
    match node_cursor reader with
    | None => Some (-1)
    | Some c =>
        has <- xml_reader_has_attributes reader ;;
        if negb has then Some 0
        else
          doc <- current_doc reader ;;
          n <- node_at doc c ;;
          count_loop (properties n) 0
    end.

(** An attribute selection: [attr_cursor] and [attr_value] are assigned,
    nothing else changes. *)
Definition select_attribute (reader : XmlReaderPrivate) (c : list nat)
    (pos : nat) (value : option string) : XmlReaderPrivate :=
  {| is_filename := is_filename reader;
     filename := filename reader;
     error_state := error_state reader;
     last_error := last_error reader;
     depth := depth reader;
     current_doc := current_doc reader;
     parent := parent reader;
     node_cursor := node_cursor reader;
     attr_cursor := Some (c, pos);
     cursor_value := cursor_value reader;
     attr_value := value |}.

(** The loop of [xml_reader_read_attribute_pos]: [i] counts on a [gint],
    [pos] is the position reached in the list. *)
Fixpoint find_attribute_pos (l : list xmlAttr) (index_ i : Z) (pos : nat)
    : option (option (nat * xmlAttr)) :=
  match l with
  | [] => Some None
  | a :: rest =>
      if i =? index_ then Some (Some (pos, a))
      else i' <- gint_result (i + 1) ;;
           find_attribute_pos rest index_ i' (S pos)
  end.

Definition xml_reader_read_attribute_pos (reader : XmlReaderPrivate)
    (index_ : Z) : option (bool * XmlReaderPrivate) :=
  if fst (xml_reader_get_error reader None) then Some (false, reader)
  else
    match node_cursor reader with
    | None => Some (false, reader)
    | Some c =>
        has <- xml_reader_has_attributes reader ;;
        if negb has then Some (false, reader)
        else
          doc <- current_doc reader ;;
          n <- node_at doc c ;;
          found <- find_attribute_pos (properties n) index_ 0 0 ;;
          match found with
          | Some (pos, a) =>
              Some (true,
                    select_attribute reader c pos (xmlGetProp n (attr_name a)))
          | None => Some (false, reader)
          end
    end.

(** The loop of [xml_reader_read_attribute_name]. *)
Fixpoint find_attribute_name (l : list xmlAttr) (attribute_name : string)
    (pos : nat) : option (nat * xmlAttr) :=
  match l with
  | [] => None
  | a :: rest =>
      if String.eqb (attr_name a) attribute_name then Some (pos, a)
      else find_attribute_name rest attribute_name (S pos)
  end.

Definition xml_reader_read_attribute_name (reader : XmlReaderPrivate)
    (attribute_name : string) : option (bool * XmlReaderPrivate) :=
  match node_cursor reader with
  | None => Some (false, reader)
  | Some c =>
      has <- xml_reader_has_attributes reader ;;
      if negb has then Some (false, reader)
      else
        doc <- current_doc reader ;;
        n <- node_at doc c ;;
        match find_attribute_name (properties n) attribute_name 0 with
        | Some (pos, a) =>
            Some (true,
                  select_attribute reader c pos (xmlGetProp n (attr_name a)))
        | None => Some (false, reader)
        end
  end.

(** [xml_reader_get_attribute_value]. *)
Definition xml_reader_get_attribute_value (reader : XmlReaderPrivate)
    : option string :=
  attr_value reader.

(** ** Call sequences *)

(** The two cursor moves of the API. *)
Inductive call : Type :=
  | enter_element (element_name : string)
  | leave_element.

(** One call; the flag is the return value of the start-element call, and
    [true] for the end-element call, which returns nothing. *)
Definition step (c : call) (reader : XmlReaderPrivate)
    : option (bool * XmlReaderPrivate) :=
  match c with
  | enter_element nm => xml_reader_read_start_element reader nm
  | leave_element =>
      r <- xml_reader_read_end_element reader ;; Some (true, r)
  end.

(** A sequence of calls, whatever they return. *)
Fixpoint run (calls : list call) (reader : XmlReaderPrivate)
    : option XmlReaderPrivate :=
  match calls with
  | [] => Some reader
  | c :: rest => r <- step c reader ;; run rest (snd r)
  end.

(** A sequence of calls all of whose start-element calls return [TRUE]. *)
Fixpoint run_successful (calls : list call) (reader : XmlReaderPrivate)
    : option XmlReaderPrivate :=
  match calls with
  | [] => Some reader
  | c :: rest =>
      r <- step c reader ;;
      if fst r then run_successful rest (snd r) else None
  end.

(** Sequences in which every start-element call is closed by a later
    end-element call, properly nested. *)
Inductive balanced : list call -> Prop :=
  | balanced_nil : balanced []
  | balanced_enter nm inner rest :
      balanced inner -> balanced rest ->
      balanced (enter_element nm :: inner ++ leave_element :: rest)%list.

(** The reader as a successful load leaves it. *)
Definition freshly_loaded (fresh : XmlReaderPrivate) : Prop :=
  exists xmlReadMemory reader buffer error error',
    xml_reader_load_from_data xmlReadMemory reader buffer error
    = Some (true, error', fresh).

(** The states a sequence of start-element and end-element calls reaches. *)
Inductive reachable (fresh : XmlReaderPrivate) : XmlReaderPrivate -> Prop :=
  | reachable_fresh : reachable fresh fresh
  | reachable_enter s nm b s' :
      reachable fresh s ->
      xml_reader_read_start_element s nm = Some (b, s') ->
      reachable fresh s'
  | reachable_leave s s' :
      reachable fresh s ->
      xml_reader_read_end_element s = Some s' ->
      reachable fresh s'.

(** The states reached when no end-element call is issued without an element
    to close, with the number of elements entered and not yet left.  An
    end-element call in the error state closes the failed attempt. *)
Inductive open_elements (fresh : XmlReaderPrivate)
    : XmlReaderPrivate -> nat -> Prop :=
  | open_fresh : open_elements fresh fresh 0
  | open_enter s k nm s' :
      open_elements fresh s k ->
      xml_reader_read_start_element s nm = Some (true, s') ->
      open_elements fresh s' (S k)
  | open_enter_failed s k nm s' :
      open_elements fresh s k ->
      xml_reader_read_start_element s nm = Some (false, s') ->
      open_elements fresh s' k
  | open_recover s k s' :
      open_elements fresh s k ->
      error_state s = true ->
      xml_reader_read_end_element s = Some s' ->
      open_elements fresh s' k
  | open_leave s k s' :
      open_elements fresh s (S k) ->
      error_state s = false ->
      xml_reader_read_end_element s = Some s' ->
      open_elements fresh s' k.

(** A document with one top-level element, named [R], among top-level nodes
    of other kinds (comments, processing instructions, the DTD). *)
Definition root_element_named (doc : xmlDoc) (R : string) : Prop :=
  exists before root after,
    children doc = (before ++ root :: after)%list
    /\ type root = XML_ELEMENT_NODE
    /\ name root = Some R
    /\ Forall (fun n => type n <> XML_ELEMENT_NODE) (before ++ after)%list.

(** ** State predicates *)

(** Where an end-element call puts the cursor: on the saved parent, or on
    the first top-level node of the document when [parent] is [NULL]. *)
Definition restored (doc : xmlDoc) (reader r' : XmlReaderPrivate) : Prop :=
  match parent reader with
  | Some p => node_cursor r' = Some p /\ parent r' = node_parent p
  | None => node_cursor r' = xmlRootNode doc /\ parent r' = None
  end.

(** A reader that holds a node pointer holds a document with a top-level
    node. *)
Definition anchored (s : XmlReaderPrivate) : Prop :=
  forall doc,
    current_doc s = Some doc ->
    node_cursor s <> None \/ parent s <> None ->
    xmlRootNode doc <> None.

(** Outside the error state a reader without cursor has depth 0, and a
    reader in the error state that saved no parent has depth 0. *)
Definition unpositioned_at_depth_zero (s : XmlReaderPrivate) : Prop :=
  (error_state s = false -> node_cursor s = None -> depth s = 0)
  /\ (error_state s = true -> parent s = None -> depth s = 0).

(** ** Sample documents *)

Definition element (nm : string) (attrs : list xmlAttr)
    (kids : list xmlNode) : xmlNode :=
  mkNode XML_ELEMENT_NODE (Some nm) None attrs kids.

Definition text (s : string) : xmlNode :=
  mkNode XML_TEXT_NODE (Some "text") (Some s) [] [].

Definition document (kids : list xmlNode) : xmlDoc :=
  mkNode XML_DOCUMENT_NODE None None [] kids.

(** [<book><author>Jane</author><title>Go</title></book>] *)
Definition book_doc : xmlDoc :=
  document
    [element "book" []
       [element "author" [] [text "Jane"];
        element "title" [] [text "Go"]]].

(** [<node role="admin" dir="rtl">payload</node>] *)
Definition node_element : xmlNode :=
  element "node" [mkAttr "role" "admin"; mkAttr "dir" "rtl"]
    [text "payload"].

Definition node_doc : xmlDoc := document [node_element].

(** [<a>text<b><c/></b></a>] *)
Definition mixed_doc : xmlDoc :=
  document
    [element "a" []
       [text "text"; element "b" [] [element "c" [] []]]].

(** [<!--c--><book><author>Jane</author></book>] *)
Definition commented_doc : xmlDoc :=
  document
    [mkNode XML_COMMENT_NODE (Some "comment") (Some "c") [] [];
     element "book" [] [element "author" [] [text "Jane"]]].

(** A reader as [xml_reader_init] leaves it; the fields the function does not
    assign are zero, as the object system allocates them. *)
Definition xml_reader_init (zero : XmlReaderError) : XmlReaderPrivate :=
  {| is_filename := false;
     filename := None;
     error_state := false;
     last_error := zero;
     depth := 0;
     current_doc := None;
     parent := None;
     node_cursor := None;
     attr_cursor := None;
     cursor_value := None;
     attr_value := None |}.

(** A parser that knows the sample documents by name. *)
Definition sample_parser (buffer : string) : option xmlDoc :=
  if String.eqb buffer "book" then Some book_doc
  else if String.eqb buffer "node" then Some node_doc
  else if String.eqb buffer "mixed" then Some mixed_doc
  else None.

Definition load_sample (reader : XmlReaderPrivate) (buffer : string)
    : XmlReaderPrivate :=
  match xml_reader_load_from_data sample_parser reader buffer None with
  | Some (_, _, r) => r
  | None => reader
  end.

Definition fresh_book : XmlReaderPrivate :=
  load_sample (xml_reader_init XML_READER_ERROR_INVALID) "book".

Definition fresh_node : XmlReaderPrivate :=
  load_sample (xml_reader_init XML_READER_ERROR_INVALID) "node".

Definition fresh_mixed : XmlReaderPrivate :=
  load_sample (xml_reader_init XML_READER_ERROR_INVALID) "mixed".

(** The reader on the root element of the book document. *)
Definition in_book : XmlReaderPrivate :=
  match xml_reader_read_start_element fresh_book "book" with
  | Some (_, r) => r
  | None => fresh_book
  end.

(** The reader on the root element of the node document. *)
Definition in_node : XmlReaderPrivate :=
  match xml_reader_read_start_element fresh_node "node" with
  | Some (_, r) => r
  | None => fresh_node
  end.

(** The reader after a sequence of calls (the reader itself if the sequence
    is undefined on it). *)
Definition after (calls : list call) (reader : XmlReaderPrivate)
    : XmlReaderPrivate :=
  match run calls reader with
  | Some r => r
  | None => reader
  end.

(** ** Loading from a file *)

(** The errors [xml_reader_load_from_file] hands to its caller: the one
    [g_file_get_contents] reports, of a type the reader does not look into,
    or the reader's own. *)
Inductive LoadError (FileError : Type) : Type :=
  | file_error (e : FileError)
  | reader_error (e : GError).

Arguments file_error {FileError} e.
Arguments reader_error {FileError} e.

(** [g_propagate_error]: the error moves into an empty destination; a [NULL]
    destination drops it and an occupied one keeps what it holds. *)
Definition g_propagate_error {E : Type} (dest : option (option E)) (src : E)
    : option (option E) :=
  match dest with
  | None => None
  | Some None => Some (Some src)
  | Some (Some e) => Some (Some e)
  end.

(** [xml_reader_load_from_file]; [g_file_get_contents] is glib's and is
    taken as an argument, as the parser is.  The internal error location is
    empty when [xml_reader_load_from_data] is called. *)
Definition xml_reader_load_from_file {FileError : Type}
    (g_file_get_contents : string -> FileError + string)
    (xmlReadMemory : string -> option xmlDoc)
    (reader : XmlReaderPrivate) (file : string)
    (error : option (option (LoadError FileError)))
    : option (bool * option (option (LoadError FileError))
              * XmlReaderPrivate) :=
  match g_file_get_contents file with
  | inl internal_error =>
      Some
        (false, g_propagate_error error (file_error internal_error), reader)
  | inr buffer =>
      let reader :=
        {| is_filename := true;
           filename := Some file;
           error_state := error_state reader;
           last_error := last_error reader;
           depth := depth reader;
           current_doc := current_doc reader;
           parent := parent reader;
           node_cursor := node_cursor reader;
           attr_cursor := attr_cursor reader;
           cursor_value := cursor_value reader;
           attr_value := attr_value reader |} in
      loaded <- xml_reader_load_from_data xmlReadMemory reader buffer
                  (Some None) ;;
      match loaded with
      | (retval, internal_error, reader') =>
          if retval then Some (true, error, reader')
          else
            Some
              (false,
               match internal_error with
               | Some (Some e) => g_propagate_error error (reader_error e)
               | _ => error
               end,
               reader')
      end
  end.

(** ** Further predicates *)

(** The test of the start-element loop: an element node with the name. *)
Definition element_named (nm : string) (n : xmlNode) : bool :=
  xmlElementType_eqb (type n) XML_ELEMENT_NODE
  && match name n with
     | Some x => String.eqb x nm
     | None => false
     end.

(** A pointer that is [NULL] or leads to a node of the document. *)
Definition valid_ptr (doc : xmlDoc) (p : xmlNodePtr) : Prop :=
  match p with
  | Some c => node_at doc c <> None
  | None => True
  end.

(** The reader holds a document, its two node pointers are valid in it and
    its depth is a [gint]. *)
Definition well_formed (s : XmlReaderPrivate) : Prop :=
  exists doc,
    current_doc s = Some doc
    /\ valid_ptr doc (node_cursor s)
    /\ valid_ptr doc (parent s)
    /\ G_MININT <= depth s <= G_MAXINT.

(** The saved parent is the parent link of the node under the cursor, or
    [NULL] with the cursor on a top-level node. *)
Definition parent_linked (s : XmlReaderPrivate) : Prop :=
  forall c,
    node_cursor s = Some c ->
    parent s = node_parent c
    \/ (parent s = None /\ exists i, c = [i]).

(** A file system with two readable files; [sample_parser] rejects the
    contents of the second. *)
Definition sample_files (file : string) : string + string :=
  if String.eqb file "book.xml" then inr "book"
  else if String.eqb file "broken.xml" then inr "<"
  else inl "No such file".

(** * Properties *)

(** ** Basic facts *)

Ltac break_match H :=
  match type of H with
  | context [match ?x with _ => _ end] => destruct x eqn:?
  end.

Ltac break_all H :=
  repeat (break_match H; try discriminate H).

Lemma gint_result_Some z d :
  gint_result z = Some d -> d = z /\ G_MININT <= z <= G_MAXINT.
Proof.
  unfold gint_result.
  destruct (G_MININT <=? z) eqn:Hlo; destruct (z <=? G_MAXINT) eqn:Hhi;
    simpl; intro H; try discriminate H.
  injection H as <-.
  apply Z.leb_le in Hlo. apply Z.leb_le in Hhi. auto.
Qed.

Lemma gint_result_in_range z :
  G_MININT <= z <= G_MAXINT -> gint_result z = Some z.
Proof.
  intros [Hlo Hhi]. unfold gint_result.
  apply Z.leb_le in Hlo. apply Z.leb_le in Hhi.
  now rewrite Hlo, Hhi.
Qed.

Lemma xmlElementType_eqb_eq a b :
  xmlElementType_eqb a b = true <-> a = b.
Proof.
  split.
  - destruct a, b; simpl; intro H; try reflexivity; discriminate H.
  - intros <-. destruct a; reflexivity.
Qed.

Lemma xmlRootNode_children doc :
  xmlRootNode doc <> None <-> children doc <> [].
Proof.
  unfold xmlRootNode. destruct (children doc); split; intro H;
    try congruence; discriminate.
Qed.

(** What the scan returns is an element with the name, found at the
    position reported. *)
Lemma find_element_Some nm l : forall i j node,
  find_element nm l i = Some (j, node) ->
  (i <= j)%nat /\ nth_error l (j - i) = Some node
  /\ type node = XML_ELEMENT_NODE /\ name node = Some nm.
Proof.
  induction l as [|n rest IH]; simpl; intros i j node H.
  - discriminate H.
  - destruct (xmlElementType_eqb (type n) XML_ELEMENT_NODE) eqn:Hty; simpl in H.
    + destruct (name n) as [nm'|] eqn:Hnm.
      * destruct (String.eqb nm' nm) eqn:Heq.
        -- injection H as <- <-. apply String.eqb_eq in Heq. subst nm'.
           apply xmlElementType_eqb_eq in Hty.
           rewrite Nat.sub_diag. simpl. auto.
        -- apply IH in H. destruct H as (Hle & Hnth & Ht & Hn).
           replace (j - i)%nat with (S (j - S i)) by lia. simpl.
           repeat split; auto; lia.
      * apply IH in H. destruct H as (Hle & Hnth & Ht & Hn).
        replace (j - i)%nat with (S (j - S i)) by lia. simpl.
        repeat split; auto; lia.
    + apply IH in H. destruct H as (Hle & Hnth & Ht & Hn).
      replace (j - i)%nat with (S (j - S i)) by lia. simpl.
      repeat split; auto; lia.
Qed.

Lemma find_element_nonempty nm l i r :
  find_element nm l i = Some r -> l <> [].
Proof. destruct l; simpl; [discriminate | congruence]. Qed.

(** The scan skips the nodes that are not elements. *)
Lemma find_element_skip nm before : forall rest i,
  Forall (fun n => type n <> XML_ELEMENT_NODE) before ->
  find_element nm (before ++ rest) i
  = find_element nm rest (i + List.length before).
Proof.
  induction before as [|n before IH]; simpl; intros rest i Hall.
  - now rewrite Nat.add_0_r.
  - inversion Hall as [|? ? Hn Hrest]; subst.
    destruct (xmlElementType_eqb (type n) XML_ELEMENT_NODE) eqn:Hty.
    + apply xmlElementType_eqb_eq in Hty. contradiction.
    + simpl. rewrite IH by assumption. f_equal. lia.
Qed.

Lemma find_element_none nm l : forall i,
  Forall (fun n => type n <> XML_ELEMENT_NODE) l ->
  find_element nm l i = None.
Proof.
  induction l as [|n l IH]; simpl; intros i Hall; [reflexivity|].
  inversion Hall as [|? ? Hn Hrest]; subst.
  destruct (xmlElementType_eqb (type n) XML_ELEMENT_NODE) eqn:Hty.
  - apply xmlElementType_eqb_eq in Hty. contradiction.
  - simpl. now apply IH.
Qed.

(** ** The calls, case by case *)

Lemma read_start_element_in_error reader nm :
  error_state reader = true ->
  xml_reader_read_start_element reader nm = Some (false, reader).
Proof.
  intro H. unfold xml_reader_read_start_element. simpl. now rewrite H.
Qed.

Lemma read_start_element_true reader nm r' :
  xml_reader_read_start_element reader nm = Some (true, r') ->
  exists doc holder i node,
    error_state reader = false
    /\ current_doc reader = Some doc
    /\ node_at doc (scan_base reader) = Some holder
    /\ find_element nm (children holder) 0 = Some (i, node)
    /\ node_cursor r' = Some (i :: scan_base reader)
    /\ parent r' = node_cursor reader
    /\ depth r' = depth reader + 1
    /\ error_state r' = false
    /\ current_doc r' = Some doc
    /\ attr_value r' = None.
Proof.
  unfold xml_reader_read_start_element, bind. simpl. intro H.
  break_all H; injection H as <-; subst;
    match goal with
    | Hd : gint_result _ = Some _ |- _ =>
        apply gint_result_Some in Hd; destruct Hd as [-> _]
    end;
    do 4 eexists; simpl; repeat split; eauto.
Qed.

Lemma read_start_element_false reader nm r' :
  xml_reader_read_start_element reader nm = Some (false, r') ->
  error_state reader = false ->
  exists doc,
    current_doc reader = Some doc
    /\ error_state r' = true
    /\ last_error r' = XML_READER_ERROR_UNKNOWN_NODE
    /\ node_cursor r' = None
    /\ attr_cursor r' = None
    /\ parent r' = match node_cursor reader with
                   | Some c => Some c
                   | None => xmlRootNode doc
                   end
    /\ (forall c, node_cursor reader = Some c -> node_at doc c <> None)
    /\ depth r' = depth reader
    /\ current_doc r' = Some doc
    /\ cursor_value r' = cursor_value reader
    /\ attr_value r' = attr_value reader.
Proof.
  unfold xml_reader_read_start_element, bind. simpl. intros H He.
  rewrite He in H.
  destruct (current_doc reader) as [doc|] eqn:Hdoc; [|discriminate H].
  destruct (node_at doc (scan_base reader)) as [holder|] eqn:Hholder;
    [|discriminate H].
  destruct (find_element nm (children holder) 0) as [[i node]|];
    [destruct (gint_result (depth reader + 1)); discriminate H|].
  injection H as <-.
  exists doc. simpl. repeat split; auto.
  intros c Hc. unfold scan_base in Hholder. rewrite Hc in Hholder. congruence.
Qed.

Lemma read_end_element_recover reader r' :
  error_state reader = true ->
  xml_reader_read_end_element reader = Some r' ->
  exists doc,
    current_doc reader = Some doc
    /\ current_doc r' = Some doc
    /\ error_state r' = false
    /\ last_error r' = last_error reader
    /\ depth r' = depth reader
    /\ restored doc reader r'
    /\ cursor_value r' = cursor_value reader
    /\ attr_value r' = attr_value reader.
Proof.
  unfold xml_reader_read_end_element, restored, bind. simpl.
  intros He H. rewrite He in H.
  destruct (current_doc reader) as [doc|] eqn:Hdoc.
  - destruct (parent reader) as [p|].
    + destruct (node_at doc p); [|discriminate H].
      injection H as <-. exists doc. simpl. auto 10.
    + injection H as <-. exists doc. simpl. auto 10.
  - destruct (parent reader); discriminate H.
Qed.

Lemma read_end_element_recover_defined reader doc :
  error_state reader = true ->
  current_doc reader = Some doc ->
  (forall p, parent reader = Some p -> node_at doc p <> None) ->
  exists r', xml_reader_read_end_element reader = Some r'.
Proof.
  unfold xml_reader_read_end_element, bind. simpl.
  intros He Hdoc Hp. rewrite He, Hdoc.
  destruct (parent reader) as [p|]; [|eauto].
  destruct (node_at doc p) eqn:Hn; [eauto|].
  exfalso. now apply (Hp p).
Qed.

Lemma read_end_element_unpositioned reader :
  error_state reader = false ->
  node_cursor reader = None ->
  xml_reader_read_end_element reader = Some reader.
Proof.
  unfold xml_reader_read_end_element. simpl. now intros -> ->.
Qed.

Lemma read_end_element_positioned reader c r' :
  error_state reader = false ->
  node_cursor reader = Some c ->
  xml_reader_read_end_element reader = Some r' ->
  exists doc,
    current_doc reader = Some doc
    /\ current_doc r' = Some doc
    /\ error_state r' = false
    /\ last_error r' = last_error reader
    /\ depth r' = depth reader - 1
    /\ restored doc reader r'
    /\ attr_cursor r' = None
    /\ cursor_value r' = None
    /\ attr_value r' = None.
Proof.
  unfold xml_reader_read_end_element, restored, bind. simpl.
  intros He Hc H. rewrite He, Hc in H.
  destruct (gint_result (depth reader - 1)) as [d|] eqn:Hd; [|discriminate H].
  apply gint_result_Some in Hd. destruct Hd as [-> _].
  destruct (current_doc reader) as [doc|] eqn:Hdoc; [|discriminate H].
  destruct (parent reader) as [p|].
  - destruct (node_at doc p); [|discriminate H].
    injection H as <-. exists doc. simpl. auto 12.
  - injection H as <-. exists doc. simpl. auto 12.
Qed.

(** The name the reader reports is the name of the node under the cursor. *)
Lemma get_element_name_positioned reader c doc :
  error_state reader = false ->
  node_cursor reader = Some c ->
  current_doc reader = Some doc ->
  xml_reader_get_element_name reader
  = n <- node_at doc c ;; Some (name n).
Proof.
  unfold xml_reader_get_element_name. simpl. now intros -> -> ->.
Qed.

Lemma get_element_name_in_error reader :
  error_state reader = true ->
  xml_reader_get_element_name reader = Some None.
Proof.
  unfold xml_reader_get_element_name. simpl. now intros ->.
Qed.

(** A successful start-element call leaves the cursor on an element with
    the name asked for. *)
Lemma read_start_element_name reader nm r' :
  xml_reader_read_start_element reader nm = Some (true, r') ->
  xml_reader_get_element_name r' = Some (Some nm).
Proof.
  intro H. apply read_start_element_true in H.
  destruct H as (doc & holder & i & node & _ & _ & Hholder & Hfind
                 & Hc' & _ & _ & He' & Hdoc' & _).
  apply find_element_Some in Hfind.
  destruct Hfind as (_ & Hnth & _ & Hnm).
  rewrite Nat.sub_0_r in Hnth.
  rewrite (get_element_name_positioned r' _ doc He' Hc' Hdoc').
  simpl. rewrite Hholder. simpl. rewrite Hnth. simpl. now rewrite Hnm.
Qed.

(** The book document of the specification, call by call: the values read,
    the depth, and the cursor that ends on the document node, the parent
    link of the root element. *)
Example book_document_walk :
  xml_reader_get_element_name in_book = Some (Some "book")
  /\ xml_reader_get_element_value in_book = None
  /\ xml_reader_get_element_value (after [enter_element "author"] in_book)
     = Some "Jane"
  /\ xml_reader_get_element_value
       (after [enter_element "author"; leave_element;
               enter_element "title"] in_book)
     = Some "Go"
  /\ depth (after [enter_element "author"; leave_element;
                   enter_element "title"] in_book) = 2
  /\ depth (after [enter_element "author"; leave_element;
                   enter_element "title"; leave_element; leave_element]
              in_book) = 0
  /\ node_cursor (after [enter_element "author"; leave_element;
                         enter_element "title"; leave_element; leave_element]
                    in_book) = Some [].
Proof. repeat split; reflexivity. Qed.

(** ** Sequences of calls *)

Lemma run_successful_app w1 : forall w2 s,
  run_successful (w1 ++ w2) s
  = s1 <- run_successful w1 s ;; run_successful w2 s1.
Proof.
  induction w1 as [|c w1 IH]; simpl; intros w2 s; [reflexivity|].
  destruct (step c s) as [[b s1]|]; simpl; [|reflexivity].
  destruct b; [apply IH | reflexivity].
Qed.

(** A balanced sequence of successful calls that starts on a node comes back
    to it with the depth it started from; the error flag and the document
    are unchanged, and the saved parent is the one it started with or the
    node's own parent link. *)
Lemma balanced_run_positioned w :
  balanced w ->
  forall s c s',
    node_cursor s = Some c ->
    run_successful w s = Some s' ->
    node_cursor s' = Some c
    /\ depth s' = depth s
    /\ error_state s' = error_state s
    /\ current_doc s' = current_doc s
    /\ (parent s' = parent s \/ parent s' = node_parent c).
Proof.
  induction 1 as [|nm inner rest Hinner IHinner Hrest IHrest];
    intros s c s' Hc Hrun.
  - simpl in Hrun. injection Hrun as <-. repeat split; auto.
  - simpl in Hrun.
    destruct (xml_reader_read_start_element s nm) as [[b s1]|] eqn:Henter;
      simpl in Hrun; [|discriminate Hrun].
    destruct b; [|discriminate Hrun].
    apply read_start_element_true in Henter.
    destruct Henter as (doc & holder & i & node & He & Hdoc & _ & _
                        & Hc1 & Hp1 & Hd1 & He1 & Hdoc1 & _).
    unfold scan_base in Hc1. rewrite Hc in Hc1, Hp1.
    rewrite run_successful_app in Hrun.
    destruct (run_successful inner s1) as [s2|] eqn:Hin; simpl in Hrun;
      [|discriminate Hrun].
    destruct (IHinner _ _ _ Hc1 Hin) as (Hc2 & Hd2 & He2 & Hdoc2 & Hp2).
    assert (Hp2' : parent s2 = Some c)
      by (destruct Hp2 as [Hp2|Hp2]; rewrite Hp2; auto).
    destruct (xml_reader_read_end_element s2) as [s3|] eqn:Hleave;
      simpl in Hrun; [|discriminate Hrun].
    rewrite He1 in He2.
    apply (read_end_element_positioned _ _ _ He2 Hc2) in Hleave.
    destruct Hleave as (doc' & Hdoc2' & Hdoc3 & He3 & _ & Hd3 & Hres & _).
    unfold restored in Hres. rewrite Hp2' in Hres. destruct Hres as [Hc3 Hp3].
    destruct (IHrest _ _ _ Hc3 Hrun) as (Hc4 & Hd4 & He4 & Hdoc4 & Hp4).
    repeat split.
    + exact Hc4.
    + rewrite Hd4, Hd3, Hd2, Hd1. lia.
    + congruence.
    + congruence.
    + right. destruct Hp4 as [Hp4|Hp4]; congruence.
Qed.

(** ** Error recovery *)

(** C4 (as amended).  When a start-element call fails on a reader that is
    not in the error state, the reader enters the error state with kind
    [XML_READER_ERROR_UNKNOWN_NODE] and an unchanged depth; the end-element
    call that follows is defined, clears the error flag and leaves the depth
    as it was.  If the cursor was on a node, it is back on that node, the
    element name reported is the same and [parent] is that node's own
    parent link, hence the saved parent of before whenever that was the
    link.  If there was no cursor, the cursor is put on the first top-level
    node of the document (none if the document is empty). *)
Theorem failed_enter_then_leave_restores_cursor s nm s1 :
  error_state s = false ->
  xml_reader_read_start_element s nm = Some (false, s1) ->
  exists doc s2,
    current_doc s = Some doc
    /\ xml_reader_read_end_element s1 = Some s2
    /\ error_state s1 = true
    /\ last_error s1 = XML_READER_ERROR_UNKNOWN_NODE
    /\ depth s1 = depth s
    /\ error_state s2 = false
    /\ depth s2 = depth s
    /\ match node_cursor s with
       | Some c =>
           node_cursor s2 = Some c
           /\ parent s2 = node_parent c
           /\ (parent s = node_parent c -> parent s2 = parent s)
           /\ xml_reader_get_element_name s2
              = xml_reader_get_element_name s
       | None =>
           node_cursor s2 = xmlRootNode doc
           /\ parent s2 = match xmlRootNode doc with
                          | Some p => node_parent p
                          | None => None
                          end
       end.
Proof.
  intros He Henter.
  destruct (read_start_element_false _ _ _ Henter He)
    as (doc & Hdoc & He1 & Hk1 & Hc1 & _ & Hp1 & Hvalid & Hd1 & Hdoc1 & _).
  destruct (read_end_element_recover_defined s1 doc He1 Hdoc1) as [s2 Hleave].
  { intros p Hp. rewrite Hp1 in Hp.
    destruct (node_cursor s) as [c|].
    - injection Hp as <-. now apply Hvalid.
    - unfold xmlRootNode in Hp.
      destruct (children doc) as [|n rest] eqn:Hkids; [discriminate Hp|].
      injection Hp as <-. simpl. rewrite Hkids. discriminate. }
  exists doc, s2. split; [exact Hdoc|]. split; [exact Hleave|].
  destruct (read_end_element_recover _ _ He1 Hleave)
    as (doc' & Hdoc1' & Hdoc2 & He2 & _ & Hd2 & Hres & _).
  assert (doc' = doc) by congruence. subst doc'.
  repeat (split; [congruence|]).
  unfold restored in Hres. rewrite Hp1 in Hres.
  destruct (node_cursor s) as [c|] eqn:Hc.
  - destruct Hres as [Hc2 Hp2].
    repeat split; auto; [congruence|].
    rewrite (get_element_name_positioned s2 c doc He2 Hc2 Hdoc2).
    now rewrite (get_element_name_positioned s c doc He Hc Hdoc).
  - destruct (xmlRootNode doc) as [p|]; destruct Hres as [Hc2 Hp2]; auto.
Qed.

Lemma failed_enter_then_leave_restores_cursor_witness :
  error_state in_book = false
  /\ xml_reader_read_start_element in_book "missing"
     = Some (false, after [enter_element "missing"] in_book)
  /\ exists doc s2,
       current_doc in_book = Some doc
       /\ xml_reader_read_end_element
            (after [enter_element "missing"] in_book) = Some s2
       /\ error_state (after [enter_element "missing"] in_book) = true
       /\ last_error (after [enter_element "missing"] in_book)
          = XML_READER_ERROR_UNKNOWN_NODE
       /\ depth (after [enter_element "missing"] in_book) = depth in_book
       /\ error_state s2 = false
       /\ depth s2 = depth in_book
       /\ match node_cursor in_book with
          | Some c =>
              node_cursor s2 = Some c
              /\ parent s2 = node_parent c
              /\ (parent in_book = node_parent c -> parent s2 = parent in_book)
              /\ xml_reader_get_element_name s2
                 = xml_reader_get_element_name in_book
          | None =>
              node_cursor s2 = xmlRootNode doc
              /\ parent s2 = match xmlRootNode doc with
                             | Some p => node_parent p
                             | None => None
                             end
          end.
Proof.
  assert (He : error_state in_book = false) by reflexivity.
  assert (Hf : xml_reader_read_start_element in_book "missing"
               = Some (false, after [enter_element "missing"] in_book))
    by reflexivity.
  exact (conj He (conj Hf
    (failed_enter_then_leave_restores_cursor _ _ _ He Hf))).
Defined.

(** C4 fails as stated on a reader that has not entered anything: the failed
    start-element call is made with no cursor, and the end-element call that
    clears the error leaves the cursor on the root element, whose name is
    then reported.  The saved parent is not restored either, there or on
    the root element entered from the fresh reader. *)
Lemma failed_enter_at_fresh_moves_cursor :
  error_state fresh_book = false
  /\ xml_reader_read_start_element fresh_book "missing"
     = Some (false, after [enter_element "missing"] fresh_book)
  /\ xml_reader_read_end_element (after [enter_element "missing"] fresh_book)
     = Some (after [enter_element "missing"; leave_element] fresh_book)
  /\ node_cursor fresh_book = None
  /\ node_cursor (after [enter_element "missing"; leave_element] fresh_book)
     = Some [0%nat]
  /\ xml_reader_get_element_name fresh_book = Some None
  /\ xml_reader_get_element_name
       (after [enter_element "missing"; leave_element] fresh_book)
     = Some (Some "book")
  /\ node_cursor (after [enter_element "missing"; leave_element] fresh_book)
     <> node_cursor fresh_book
  /\ xml_reader_get_element_name
       (after [enter_element "missing"; leave_element] fresh_book)
     <> xml_reader_get_element_name fresh_book
  /\ parent (after [enter_element "missing"; leave_element] fresh_book)
     <> parent fresh_book
  /\ node_cursor in_book = Some [0%nat]
  /\ parent (after [enter_element "missing"; leave_element] in_book)
     <> parent in_book.
Proof. repeat split; try reflexivity; vm_compute; discriminate. Qed.

(** With a comment before the root element, the first top-level node is the
    comment: that is where the cursor is put when the failed call was made
    without cursor, and the children scanned next are the comment's. *)
Example recovery_lands_on_leading_comment :
  let fresh :=
    match xml_reader_load_from_data (fun _ => Some commented_doc)
            (xml_reader_init XML_READER_ERROR_INVALID) "" None with
    | Some (_, _, r) => r
    | None => xml_reader_init XML_READER_ERROR_INVALID
    end in
  node_cursor (after [enter_element "missing"; leave_element] fresh)
  = Some [0%nat]
  /\ xml_reader_get_element_name
       (after [enter_element "missing"; leave_element] fresh)
     = Some (Some "comment")
  /\ error_state
       (after [enter_element "missing"; leave_element;
               enter_element "author"] fresh) = true
  /\ xml_reader_get_element_name (after [enter_element "book"] fresh)
     = Some (Some "book").
Proof. repeat split; reflexivity. Qed.

(** ** Balanced sequences *)

Lemma balanced_run_unpositioned w s s' :
  balanced w ->
  node_cursor s = None ->
  run_successful w s = Some s' ->
  depth s' = depth s /\ (w <> [] -> node_cursor s' <> None).
Proof.
  intros Hbal Hc Hrun.
  destruct Hbal as [|nm inner rest Hinner Hrest].
  - simpl in Hrun. injection Hrun as <-. split; [reflexivity | congruence].
  - simpl in Hrun.
    destruct (xml_reader_read_start_element s nm) as [[b s1]|] eqn:Henter;
      simpl in Hrun; [|discriminate Hrun].
    destruct b; [|discriminate Hrun].
    apply read_start_element_true in Henter.
    destruct Henter as (doc & holder & i & node & He & Hdoc & Hholder & Hfind
                        & Hc1 & Hp1 & Hd1 & He1 & Hdoc1 & _).
    unfold scan_base in Hc1, Hholder. rewrite Hc in Hc1, Hp1, Hholder.
    simpl in Hholder. injection Hholder as <-.
    apply find_element_nonempty in Hfind.
    rewrite run_successful_app in Hrun.
    destruct (run_successful inner s1) as [s2|] eqn:Hin; simpl in Hrun;
      [|discriminate Hrun].
    destruct (balanced_run_positioned inner Hinner _ _ _ Hc1 Hin)
      as (Hc2 & Hd2 & He2 & Hdoc2 & Hp2).
    destruct (xml_reader_read_end_element s2) as [s3|] eqn:Hleave;
      simpl in Hrun; [|discriminate Hrun].
    rewrite He1 in He2.
    apply (read_end_element_positioned _ _ _ He2 Hc2) in Hleave.
    destruct Hleave as (doc' & Hdoc2' & _ & _ & _ & Hd3 & Hres & _).
    assert (doc' = doc) by congruence. subst doc'.
    assert (Hc3 : exists c3, node_cursor s3 = Some c3).
    { unfold restored in Hres. destruct (parent s2) as [p|].
      - destruct Hres as [Hc3 _]. eauto.
      - destruct Hres as [Hc3 _]. rewrite Hc3.
        destruct (xmlRootNode doc) as [r|] eqn:Hroot; [eauto|].
        exfalso. apply (proj2 (xmlRootNode_children doc) Hfind). exact Hroot. }
    destruct Hc3 as [c3 Hc3].
    destruct (balanced_run_positioned rest Hrest _ _ _ Hc3 Hrun)
      as (Hc4 & Hd4 & _).
    split; [rewrite Hd4, Hd3, Hd2, Hd1; lia|].
    intros _. rewrite Hc4. discriminate.
Qed.

(** C6 (as amended).  After a sequence of successful start-element calls
    each closed by a matching end-element call, the depth is what it was
    before the sequence, whatever the starting state.  When the cursor was
    on a node, the cursor and the element name reported are restored too.
    When there was no cursor and the sequence is not empty, the cursor is
    not restored: it ends on a node of the document. *)
Theorem balanced_calls_restore_depth_and_name w s s' :
  balanced w ->
  run_successful w s = Some s' ->
  depth s' = depth s
  /\ match node_cursor s with
     | Some c =>
         node_cursor s' = Some c
         /\ xml_reader_get_element_name s' = xml_reader_get_element_name s
     | None => w <> [] -> node_cursor s' <> None
     end.
Proof.
  intros Hbal Hrun.
  destruct (node_cursor s) as [c|] eqn:Hc.
  - destruct (balanced_run_positioned w Hbal s c s' Hc Hrun)
      as (Hc' & Hd & He & Hdoc & _).
    repeat split; [exact Hd | exact Hc' |].
    unfold xml_reader_get_element_name. simpl.
    now rewrite He, Hc', Hc, Hdoc.
  - exact (balanced_run_unpositioned w s s' Hbal Hc Hrun).
Qed.

Lemma balanced_calls_restore_depth_and_name_witness :
  balanced [enter_element "author"; leave_element;
            enter_element "title"; leave_element]
  /\ run_successful [enter_element "author"; leave_element;
                     enter_element "title"; leave_element] in_book
     = Some (after [enter_element "author"; leave_element;
                    enter_element "title"; leave_element] in_book)
  /\ depth (after [enter_element "author"; leave_element;
                   enter_element "title"; leave_element] in_book)
     = depth in_book
  /\ match node_cursor in_book with
     | Some c =>
         node_cursor (after [enter_element "author"; leave_element;
                             enter_element "title"; leave_element] in_book)
         = Some c
         /\ xml_reader_get_element_name
              (after [enter_element "author"; leave_element;
                      enter_element "title"; leave_element] in_book)
            = xml_reader_get_element_name in_book
     | None =>
         [enter_element "author"; leave_element;
          enter_element "title"; leave_element] <> [] ->
         node_cursor (after [enter_element "author"; leave_element;
                             enter_element "title"; leave_element] in_book)
         <> None
     end.
Proof.
  assert (Hb : balanced [enter_element "author"; leave_element;
                         enter_element "title"; leave_element]).
  { apply (balanced_enter "author" []
             [enter_element "title"; leave_element]).
    - apply balanced_nil.
    - apply (balanced_enter "title" [] []); apply balanced_nil. }
  assert (Hr : run_successful [enter_element "author"; leave_element;
                               enter_element "title"; leave_element] in_book
               = Some (after [enter_element "author"; leave_element;
                              enter_element "title"; leave_element] in_book))
    by reflexivity.
  exact (conj Hb (conj Hr
    (balanced_calls_restore_depth_and_name _ _ _ Hb Hr))).
Defined.

(** C6 fails as stated on a reader that has not entered anything: entering
    and leaving the root element keeps the depth, but the name reported goes
    from nothing to the root's name, because the cursor rests on the root. *)
Lemma balanced_calls_from_fresh_change_name :
  balanced [enter_element "book"; leave_element]
  /\ run_successful [enter_element "book"; leave_element] fresh_book
     = Some (after [enter_element "book"; leave_element] fresh_book)
  /\ depth (after [enter_element "book"; leave_element] fresh_book)
     = depth fresh_book
  /\ xml_reader_get_element_name fresh_book = Some None
  /\ xml_reader_get_element_name
       (after [enter_element "book"; leave_element] fresh_book)
     = Some (Some "book")
  /\ xml_reader_get_element_name
       (after [enter_element "book"; leave_element] fresh_book)
     <> xml_reader_get_element_name fresh_book.
Proof.
  split.
  - apply (balanced_enter "book" [] []); apply balanced_nil.
  - repeat split; try reflexivity. vm_compute. discriminate.
Qed.

(** ** Invariants of the reachable states *)

Lemma freshly_loaded_fields fresh :
  freshly_loaded fresh ->
  depth fresh = 0
  /\ node_cursor fresh = None
  /\ attr_cursor fresh = None
  /\ cursor_value fresh = None
  /\ attr_value fresh = None
  /\ exists doc, current_doc fresh = Some doc /\ parent fresh = xmlRootNode doc.
Proof.
  intros (parse & reader & buffer & error & error' & Hload).
  unfold xml_reader_load_from_data in Hload. cbv zeta in Hload.
  destruct (parse buffer) as [doc|].
  - injection Hload as _ <-. simpl.
    repeat (split; [reflexivity|]). exists doc. split; reflexivity.
  - unfold bind in Hload.
    destruct (g_set_error _ _ _ _); discriminate Hload.
Qed.

Lemma anchored_fresh fresh : freshly_loaded fresh -> anchored fresh.
Proof.
  intro H. apply freshly_loaded_fields in H.
  destruct H as (_ & Hc & _ & _ & _ & doc & Hdoc & Hp).
  intros doc' Hdoc' [Hn|Hn]; [congruence|].
  assert (doc' = doc) by congruence. subst doc'. congruence.
Qed.

Lemma anchored_enter s nm b s' :
  anchored s ->
  xml_reader_read_start_element s nm = Some (b, s') ->
  anchored s'.
Proof.
  intros Hs Henter. destruct b.
  - apply read_start_element_true in Henter.
    destruct Henter as (doc & holder & i & node & _ & Hdoc & Hholder & Hfind
                        & _ & _ & _ & _ & Hdoc' & _).
    intros doc' Hd _. assert (doc' = doc) by congruence. subst doc'.
    unfold scan_base in Hholder.
    destruct (node_cursor s) as [c|] eqn:Hc.
    + apply (Hs doc Hdoc). left. congruence.
    + simpl in Hholder. injection Hholder as <-.
      apply xmlRootNode_children. now apply find_element_nonempty in Hfind.
  - destruct (error_state s) eqn:He.
    + rewrite (read_start_element_in_error s nm He) in Henter.
      now injection Henter as <-.
    + destruct (read_start_element_false _ _ _ Henter He)
        as (doc & Hdoc & _ & _ & Hc' & _ & Hp' & _ & _ & Hdoc' & _).
      intros doc' Hd [Hn|Hn]; [congruence|].
      assert (doc' = doc) by congruence. subst doc'.
      destruct (node_cursor s) as [c|] eqn:Hc.
      * apply (Hs doc Hdoc). left. congruence.
      * congruence.
Qed.

Lemma anchored_leave s s' :
  anchored s ->
  xml_reader_read_end_element s = Some s' ->
  anchored s'.
Proof.
  intros Hs Hleave. destruct (error_state s) eqn:He.
  - destruct (read_end_element_recover _ _ He Hleave)
      as (doc & Hdoc & Hdoc' & _ & _ & _ & Hres & _).
    intros doc' Hd Hn. assert (doc' = doc) by congruence. subst doc'.
    unfold restored in Hres. destruct (parent s) as [p|] eqn:Hp.
    + apply (Hs doc Hdoc). right. congruence.
    + destruct Hres as [Hc' Hp']. destruct Hn as [Hn|Hn]; congruence.
  - destruct (node_cursor s) as [c|] eqn:Hc.
    + destruct (read_end_element_positioned _ _ _ He Hc Hleave)
        as (doc & Hdoc & Hdoc' & _).
      intros doc' Hd _. assert (doc' = doc) by congruence. subst doc'.
      apply (Hs doc Hdoc). left. congruence.
    + rewrite (read_end_element_unpositioned s He Hc) in Hleave.
      now injection Hleave as <-.
Qed.

(** After an end-element call made on a node, the cursor is on a node. *)
Lemma leave_positioned_stays_positioned s c s' :
  anchored s ->
  error_state s = false ->
  node_cursor s = Some c ->
  xml_reader_read_end_element s = Some s' ->
  node_cursor s' <> None.
Proof.
  intros Hs He Hc Hleave.
  destruct (read_end_element_positioned _ _ _ He Hc Hleave)
    as (doc & Hdoc & _ & _ & _ & _ & Hres & _).
  unfold restored in Hres. destruct (parent s) as [p|].
  - destruct Hres as [-> _]. discriminate.
  - destruct Hres as [-> _]. apply (Hs doc Hdoc). left. congruence.
Qed.

Section FromFreshReader.

Variable fresh : XmlReaderPrivate.
Hypothesis Hfresh : freshly_loaded fresh.

Lemma reachable_invariant s :
  reachable fresh s ->
  anchored s /\ unpositioned_at_depth_zero s.
Proof.
  intros Hreach.
  induction Hreach as [|s nm b s' Hreach [IHa [IHn IHe]] Henter
                        |s s' Hreach [IHa [IHn IHe]] Hleave].
  - split; [now apply anchored_fresh|].
    destruct (freshly_loaded_fields fresh Hfresh) as (Hd & _).
    split; intros; exact Hd.
  - split; [now apply (anchored_enter s nm b)|].
    destruct b.
    + apply read_start_element_true in Henter.
      destruct Henter as (doc & holder & i & node & _ & _ & _ & _
                          & Hc' & _ & _ & He' & _).
      split; intros; congruence.
    + destruct (error_state s) eqn:He.
      * rewrite (read_start_element_in_error s nm He) in Henter.
        injection Henter as <-.
        split; [congruence | intros _ Hp; now apply IHe].
      * destruct (read_start_element_false _ _ _ Henter He)
          as (doc & Hdoc & He' & _ & _ & _ & Hp' & _ & Hd' & _).
        split; [congruence|].
        intros _ Hp. rewrite Hd'. apply IHn; [reflexivity|].
        destruct (node_cursor s); [congruence | reflexivity].
  - split; [now apply (anchored_leave s)|].
    destruct (error_state s) eqn:He.
    + destruct (read_end_element_recover _ _ He Hleave)
        as (doc & _ & _ & He' & _ & Hd' & Hres & _).
      split; [|congruence].
      intros _ Hc'. rewrite Hd'. apply IHe; [reflexivity|].
      unfold restored in Hres. destruct (parent s); [|reflexivity].
      destruct Hres. congruence.
    + destruct (node_cursor s) as [c|] eqn:Hc.
      * pose proof (leave_positioned_stays_positioned _ _ _ IHa He Hc Hleave)
          as Hpos.
        destruct (read_end_element_positioned _ _ _ He Hc Hleave)
          as (doc & _ & _ & He' & _).
        split; [intros; contradiction | congruence].
      * rewrite (read_end_element_unpositioned s He Hc) in Hleave.
        injection Hleave as <-.
        split; [intros _ Hc'; now apply IHn | congruence].
Qed.

(** C3 (as amended).  In every state reached from a freshly loaded document
    by start-element and end-element calls, outside the error state, a
    reader whose cursor is absent has depth 0. *)
Theorem unpositioned_implies_depth_zero s :
  reachable fresh s ->
  error_state s = false ->
  node_cursor s = None ->
  depth s = 0.
Proof.
  intros Hreach He Hc.
  destruct (reachable_invariant s Hreach) as [_ [Hn _]].
  now apply Hn.
Qed.

(** The depth counter. *)

Lemma open_elements_invariant s k :
  open_elements fresh s k ->
  anchored s
  /\ depth s = Z.of_nat k
  /\ (k <> 0%nat ->
      if error_state s then parent s <> None else node_cursor s <> None).
Proof.
  intros Hopen.
  induction Hopen as [|s k nm s' Hopen (IHa & IHd & IHp) Henter
                      |s k nm s' Hopen (IHa & IHd & IHp) Henter
                      |s k s' Hopen (IHa & IHd & IHp) He Hleave
                      |s k s' Hopen (IHa & IHd & IHp) He Hleave].
  - split; [now apply anchored_fresh|].
    destruct (freshly_loaded_fields fresh Hfresh) as (Hd & _).
    split; [exact Hd | congruence].
  - split; [now apply (anchored_enter s nm true)|].
    apply read_start_element_true in Henter.
    destruct Henter as (doc & holder & i & node & _ & _ & _ & _
                        & Hc' & _ & Hd' & He' & _).
    split; [rewrite Hd', IHd; lia|].
    intros _. rewrite He', Hc'. discriminate.
  - split; [now apply (anchored_enter s nm false)|].
    destruct (error_state s) eqn:He.
    + rewrite (read_start_element_in_error s nm He) in Henter.
      injection Henter as <-. rewrite He. auto.
    + destruct (read_start_element_false _ _ _ Henter He)
        as (doc & _ & He' & _ & _ & _ & Hp' & _ & Hd' & _).
      split; [congruence|].
      intros Hk. rewrite He', Hp'. specialize (IHp Hk).
      destruct (node_cursor s); [discriminate | contradiction].
  - split; [now apply (anchored_leave s)|].
    destruct (read_end_element_recover _ _ He Hleave)
      as (doc & _ & _ & He' & _ & Hd' & Hres & _).
    split; [congruence|].
    intros Hk. rewrite He'. specialize (IHp Hk). rewrite He in IHp.
    unfold restored in Hres. destruct (parent s); [|contradiction].
    destruct Hres as [-> _]. discriminate.
  - split; [now apply (anchored_leave s)|].
    assert (Hk : S k <> 0%nat) by discriminate.
    specialize (IHp Hk). rewrite He in IHp.
    destruct (node_cursor s) as [c|] eqn:Hc; [|contradiction].
    pose proof (leave_positioned_stays_positioned _ _ _ IHa He Hc Hleave)
      as Hpos.
    destruct (read_end_element_positioned _ _ _ He Hc Hleave)
      as (doc & _ & _ & He' & _ & Hd' & _).
    split; [rewrite Hd', IHd; lia|].
    intros _. now rewrite He'.
Qed.

(** C7 (as amended).  In every state reached from a freshly loaded document
    by start-element and end-element calls among which no end-element call
    is issued without an element to close, the depth is the number of
    elements entered and not yet left, hence not negative. *)
Theorem depth_counts_open_elements s k :
  open_elements fresh s k ->
  depth s = Z.of_nat k /\ 0 <= depth s.
Proof.
  intros Hopen.
  destruct (open_elements_invariant s k Hopen) as (_ & Hd & _).
  split; [exact Hd | lia].
Qed.

End FromFreshReader.

(** *** On the book document *)

Lemma fresh_book_freshly_loaded : freshly_loaded fresh_book.
Proof.
  exists sample_parser, (xml_reader_init XML_READER_ERROR_INVALID),
    "book", None, None.
  reflexivity.
Defined.

Lemma unpositioned_implies_depth_zero_witness :
  freshly_loaded fresh_book
  /\ reachable fresh_book (after [leave_element] fresh_book)
  /\ error_state (after [leave_element] fresh_book) = false
  /\ node_cursor (after [leave_element] fresh_book) = None
  /\ depth (after [leave_element] fresh_book) = 0.
Proof.
  assert (Hr : reachable fresh_book (after [leave_element] fresh_book)).
  { apply (reachable_leave fresh_book fresh_book).
    - apply reachable_fresh.
    - reflexivity. }
  assert (He : error_state (after [leave_element] fresh_book) = false)
    by reflexivity.
  assert (Hc : node_cursor (after [leave_element] fresh_book) = None)
    by reflexivity.
  exact (conj fresh_book_freshly_loaded (conj Hr (conj He (conj Hc
    (unpositioned_implies_depth_zero _ fresh_book_freshly_loaded _
       Hr He Hc))))).
Defined.

(** C3 fails as stated: after the root element is entered and left, the
    reader is not in the error state, its depth is 0 and its cursor is on
    the root element. *)
Lemma depth_zero_with_cursor_on_root :
  freshly_loaded fresh_book
  /\ reachable fresh_book
       (after [enter_element "book"; leave_element] fresh_book)
  /\ error_state (after [enter_element "book"; leave_element] fresh_book)
     = false
  /\ ~ (depth (after [enter_element "book"; leave_element] fresh_book) = 0
        <-> node_cursor
              (after [enter_element "book"; leave_element] fresh_book)
            = None).
Proof.
  split; [exact fresh_book_freshly_loaded|].
  split.
  - apply (reachable_leave fresh_book in_book).
    + apply (reachable_enter fresh_book fresh_book "book" true).
      * apply reachable_fresh.
      * reflexivity.
    + reflexivity.
  - split; [reflexivity|].
    intros [H _]. specialize (H eq_refl). discriminate H.
Qed.

Lemma depth_counts_open_elements_witness :
  freshly_loaded fresh_book
  /\ open_elements fresh_book
       (after [enter_element "book"; enter_element "missing"; leave_element;
               enter_element "author"] fresh_book) 2
  /\ depth (after [enter_element "book"; enter_element "missing";
                   leave_element; enter_element "author"] fresh_book)
     = Z.of_nat 2
  /\ 0 <= depth (after [enter_element "book"; enter_element "missing";
                        leave_element; enter_element "author"] fresh_book).
Proof.
  assert (Ho : open_elements fresh_book
                 (after [enter_element "book"; enter_element "missing";
                         leave_element; enter_element "author"] fresh_book)
                 2).
  { apply (open_enter fresh_book
             (after [enter_element "book"; enter_element "missing";
                     leave_element] fresh_book) 1 "author");
      [|reflexivity].
    apply (open_recover fresh_book
             (after [enter_element "book"; enter_element "missing"]
                fresh_book) 1);
      [|reflexivity|reflexivity].
    apply (open_enter_failed fresh_book in_book 1 "missing");
      [|reflexivity].
    apply (open_enter fresh_book fresh_book 0 "book"); [|reflexivity].
    apply open_fresh. }
  destruct (depth_counts_open_elements _ fresh_book_freshly_loaded _ _ Ho)
    as [Hd Hn].
  exact (conj fresh_book_freshly_loaded (conj Ho (conj Hd Hn))).
Defined.

(** C7 fails as stated: once the root element has been entered and left the
    cursor rests on it, so one more end-element call decrements the depth
    again, to -1. *)
Lemma extra_leave_makes_depth_negative :
  freshly_loaded fresh_book
  /\ reachable fresh_book
       (after [enter_element "book"; leave_element; leave_element]
          fresh_book)
  /\ depth (after [enter_element "book"; leave_element; leave_element]
              fresh_book) = -1
  /\ ~ 0 <= depth (after [enter_element "book"; leave_element; leave_element]
                     fresh_book).
Proof.
  split; [exact fresh_book_freshly_loaded|].
  split.
  - apply (reachable_leave fresh_book
             (after [enter_element "book"; leave_element] fresh_book));
      [|reflexivity].
    apply (reachable_leave fresh_book in_book); [|reflexivity].
    apply (reachable_enter fresh_book fresh_book "book" true);
      [|reflexivity].
    apply reachable_fresh.
  - split; [reflexivity|]. intro H. vm_compute in H. now apply H.
Qed.


(** ** The first start-element call *)

Lemma find_element_root nm before root after i :
  Forall (fun n => type n <> XML_ELEMENT_NODE) (before ++ after) ->
  type root = XML_ELEMENT_NODE ->
  name root = Some nm ->
  find_element nm (before ++ root :: after) i
  = Some ((i + List.length before)%nat, root).
Proof.
  intros Hall Hty Hnm. apply Forall_app in Hall. destruct Hall as [Hb _].
  rewrite find_element_skip by assumption. simpl.
  now rewrite Hty, Hnm, String.eqb_refl.
Qed.

Lemma find_element_other_name nm other before root after i :
  Forall (fun n => type n <> XML_ELEMENT_NODE) (before ++ after) ->
  name root = Some nm ->
  other <> nm ->
  find_element other (before ++ root :: after) i = None.
Proof.
  intros Hall Hnm Hneq. apply Forall_app in Hall. destruct Hall as [Hb Ha].
  rewrite find_element_skip by assumption. simpl. rewrite Hnm.
  assert (Heq : String.eqb nm other = false)
    by (apply String.eqb_neq; congruence).
  rewrite Heq, andb_false_r. now apply find_element_none.
Qed.

(** A reader that is not in the error state loads a document whose one
    top-level element is named [R].  The first start-element call then scans
    the top-level nodes of the document, not the children of the root: with
    the name [R] it succeeds and puts the cursor on the root element at
    depth 1; with any other name it fails and sets the error state with
    kind [XML_READER_ERROR_UNKNOWN_NODE]. *)
Theorem first_enter_matches_root xmlReadMemory reader buffer error doc R :
  error_state reader = false ->
  xmlReadMemory buffer = Some doc ->
  root_element_named doc R ->
  exists fresh,
    xml_reader_load_from_data xmlReadMemory reader buffer error
    = Some (true, error, fresh)
    /\ (exists i root r1,
          nth_error (children doc) i = Some root
          /\ type root = XML_ELEMENT_NODE
          /\ name root = Some R
          /\ xml_reader_read_start_element fresh R = Some (true, r1)
          /\ node_cursor r1 = Some [i]
          /\ depth r1 = 1
          /\ xml_reader_get_element_name r1 = Some (Some R))
    /\ (forall X, X <> R ->
          exists r2,
            xml_reader_read_start_element fresh X = Some (false, r2)
            /\ error_state r2 = true
            /\ last_error r2 = XML_READER_ERROR_UNKNOWN_NODE
            /\ node_cursor r2 = None
            /\ depth r2 = 0).
Proof.
  intros He Hparse (before & root & after & Hkids & Hty & Hnm & Hall).
  unfold xml_reader_load_from_data. cbv zeta. rewrite Hparse.
  eexists. split; [reflexivity|]. split.
  - exists (List.length before), root.
    unfold xml_reader_read_start_element, scan_base, bind. simpl.
    rewrite He, Hkids.
    rewrite (find_element_root R before root after 0 Hall Hty Hnm). simpl.
    eexists. repeat split; try reflexivity; try assumption.
    + rewrite nth_error_app2 by lia. now rewrite Nat.sub_diag.
    + unfold xml_reader_get_element_name, bind. simpl.
      rewrite Hkids. rewrite nth_error_app2 by lia.
      rewrite Nat.sub_diag. simpl. now rewrite Hnm.
  - intros X HX.
    unfold xml_reader_read_start_element, scan_base, bind. simpl.
    rewrite He, Hkids.
    rewrite (find_element_other_name R X before root after 0 Hall Hnm HX).
    eexists. repeat split; reflexivity.
Qed.

Lemma book_root_element : root_element_named book_doc "book".
Proof.
  exists [], (element "book" []
                [element "author" [] [text "Jane"];
                 element "title" [] [text "Go"]]), [].
  repeat split. constructor.
Defined.

Lemma first_enter_matches_root_witness :
  error_state (xml_reader_init XML_READER_ERROR_INVALID) = false
  /\ sample_parser "book" = Some book_doc
  /\ root_element_named book_doc "book"
  /\ exists fresh,
       xml_reader_load_from_data sample_parser
         (xml_reader_init XML_READER_ERROR_INVALID) "book" None
       = Some (true, None, fresh)
       /\ (exists i root r1,
             nth_error (children book_doc) i = Some root
             /\ type root = XML_ELEMENT_NODE
             /\ name root = Some "book"
             /\ xml_reader_read_start_element fresh "book" = Some (true, r1)
             /\ node_cursor r1 = Some [i]
             /\ depth r1 = 1
             /\ xml_reader_get_element_name r1 = Some (Some "book"))
       /\ (forall X, X <> "book" ->
             exists r2,
               xml_reader_read_start_element fresh X = Some (false, r2)
               /\ error_state r2 = true
               /\ last_error r2 = XML_READER_ERROR_UNKNOWN_NODE
               /\ node_cursor r2 = None
               /\ depth r2 = 0).
Proof.
  assert (He : error_state (xml_reader_init XML_READER_ERROR_INVALID) = false)
    by reflexivity.
  assert (Hp : sample_parser "book" = Some book_doc) by reflexivity.
  exact (conj He (conj Hp (conj book_root_element
    (first_enter_matches_root sample_parser _ "book" None book_doc "book"
       He Hp book_root_element)))).
Defined.

(** C5 (the code departs from it).  The book document has the one top-level
    element [book].  A reader put in the error state by a failed
    start-element call on the node document loads it: the load returns
    [TRUE], and the first start-element call, which names the root element,
    returns [FALSE] and leaves the reader as it is, because the load has
    kept the error flag; on a reader that was not in the error state the
    same call succeeds. *)
Theorem first_enter_after_reload_fails :
  root_element_named book_doc "book"
  /\ error_state (after [enter_element "missing"] fresh_node) = true
  /\ xml_reader_load_from_data sample_parser
       (after [enter_element "missing"] fresh_node) "book" None
     = Some (true, None,
             load_sample (after [enter_element "missing"] fresh_node) "book")
  /\ current_doc
       (load_sample (after [enter_element "missing"] fresh_node) "book")
     = Some book_doc
  /\ xml_reader_read_start_element
       (load_sample (after [enter_element "missing"] fresh_node) "book")
       "book"
     = Some (false,
             load_sample (after [enter_element "missing"] fresh_node) "book")
  /\ xml_reader_read_start_element fresh_book "book" = Some (true, in_book).
Proof.
  split; [exact book_root_element|].
  repeat split; reflexivity.
Qed.

(** The root's children are not candidates of the first call: in the book
    document the name of a child of the root fails as a first call, and is
    found once the root has been entered. *)
Example first_enter_skips_children :
  xml_reader_read_start_element fresh_book "author"
  = Some (false, after [enter_element "author"] fresh_book)
  /\ error_state (after [enter_element "author"] fresh_book) = true
  /\ xml_reader_read_start_element in_book "author"
     = Some (true, after [enter_element "author"] in_book)
  /\ xml_reader_get_element_value (after [enter_element "author"] in_book)
     = Some "Jane".
Proof. repeat split; reflexivity. Qed.

(** ** Attribute selection *)

Lemma find_attribute_name_none nm l : forall pos,
  (forall a, In a l -> attr_name a <> nm) ->
  find_attribute_name l nm pos = None.
Proof.
  induction l as [|a l IH]; simpl; intros pos Habs; [reflexivity|].
  assert (Heq : String.eqb (attr_name a) nm = false)
    by (apply String.eqb_neq; apply Habs; now left).
  rewrite Heq. apply IH. intros b Hb. apply Habs. now right.
Qed.

Lemma find_attribute_name_first nm before a rest : forall pos,
  attr_name a = nm ->
  (forall b, In b before -> attr_name b <> nm) ->
  find_attribute_name (before ++ a :: rest) nm pos
  = Some ((pos + List.length before)%nat, a).
Proof.
  induction before as [|b before IH]; simpl; intros pos Ha Hb.
  - rewrite Ha, String.eqb_refl, Nat.add_0_r. reflexivity.
  - assert (Heq : String.eqb (attr_name b) nm = false)
      by (apply String.eqb_neq; apply Hb; now left).
    rewrite Heq, IH; auto. f_equal. f_equal. lia.
Qed.

Lemma xmlGetProp_list_first nm before a rest :
  attr_name a = nm ->
  (forall b, In b before -> attr_name b <> nm) ->
  xmlGetProp_list (before ++ a :: rest) nm = Some (attr_content a).
Proof.
  induction before as [|b before IH]; simpl; intros Ha Hb.
  - now rewrite Ha, String.eqb_refl.
  - assert (Heq : String.eqb (attr_name b) nm = false)
      by (apply String.eqb_neq; apply Hb; now left).
    rewrite Heq. apply IH; auto.
Qed.

(** C8.  On a reader that is not in the error state and whose cursor is on
    a node: selecting an attribute by a name the node does not carry returns
    [FALSE] and leaves the reader as it was, so the selected attribute, the
    cached value and what [xml_reader_get_attribute_value] returns are the
    same; selecting by a name the node carries returns [TRUE] and sets the
    selected attribute to the first attribute with that name and the cached
    value to its decoded value. *)
Theorem read_attribute_name_miss_and_hit reader c doc n attribute_name :
  error_state reader = false ->
  node_cursor reader = Some c ->
  current_doc reader = Some doc ->
  node_at doc c = Some n ->
  ((forall a, In a (properties n) -> attr_name a <> attribute_name) ->
   exists r',
     xml_reader_read_attribute_name reader attribute_name = Some (false, r')
     /\ r' = reader
     /\ attr_cursor r' = attr_cursor reader
     /\ attr_value r' = attr_value reader
     /\ xml_reader_get_attribute_value r'
        = xml_reader_get_attribute_value reader)
  /\ (forall before a rest,
        properties n = (before ++ a :: rest)%list ->
        attr_name a = attribute_name ->
        (forall b, In b before -> attr_name b <> attribute_name) ->
        exists r',
          xml_reader_read_attribute_name reader attribute_name
          = Some (true, r')
          /\ attr_cursor r' = Some (c, List.length before)
          /\ attr_value r' = Some (attr_content a)
          /\ xml_reader_get_attribute_value r' = Some (attr_content a)
          /\ node_cursor r' = node_cursor reader
          /\ cursor_value r' = cursor_value reader
          /\ depth r' = depth reader).
Proof.
  intros He Hc Hdoc Hn. split.
  - intros Habs. exists reader.
    unfold xml_reader_read_attribute_name, xml_reader_has_attributes, bind.
    simpl. rewrite He, Hc, Hdoc, Hn.
    rewrite (find_attribute_name_none _ _ 0%nat Habs).
    destruct (properties n); simpl; auto.
  - intros before a rest Hprops Ha Hb. subst attribute_name.
    unfold xml_reader_read_attribute_name, xml_reader_has_attributes, bind.
    simpl. rewrite He, Hc, Hdoc, Hn.
    unfold xmlGetProp. rewrite Hprops.
    rewrite (find_attribute_name_first _ before a rest 0%nat eq_refl Hb).
    rewrite (xmlGetProp_list_first _ before a rest eq_refl Hb).
    destruct before; simpl; eexists;
      repeat split; try reflexivity; exact Hc.
Qed.

Lemma read_attribute_name_miss_and_hit_witness :
  error_state in_node = false
  /\ node_cursor in_node = Some [0%nat]
  /\ current_doc in_node = Some node_doc
  /\ node_at node_doc [0%nat] = Some node_element
  /\ (forall a, In a (properties node_element) -> attr_name a <> "lang")
  /\ (exists r',
        xml_reader_read_attribute_name in_node "lang" = Some (false, r')
        /\ r' = in_node
        /\ attr_cursor r' = attr_cursor in_node
        /\ attr_value r' = attr_value in_node
        /\ xml_reader_get_attribute_value r'
           = xml_reader_get_attribute_value in_node)
  /\ properties node_element
     = ([mkAttr "role" "admin"] ++ mkAttr "dir" "rtl" :: [])%list
  /\ (forall b, In b [mkAttr "role" "admin"] -> attr_name b <> "dir")
  /\ (exists r',
        xml_reader_read_attribute_name in_node "dir" = Some (true, r')
        /\ attr_cursor r' = Some ([0%nat], 1%nat)
        /\ attr_value r' = Some "rtl"
        /\ xml_reader_get_attribute_value r' = Some "rtl"
        /\ node_cursor r' = node_cursor in_node
        /\ cursor_value r' = cursor_value in_node
        /\ depth r' = depth in_node).
Proof.
  assert (He : error_state in_node = false) by reflexivity.
  assert (Hc : node_cursor in_node = Some [0%nat]) by reflexivity.
  assert (Hd : current_doc in_node = Some node_doc) by reflexivity.
  assert (Hn : node_at node_doc [0%nat] = Some node_element) by reflexivity.
  assert (Habs : forall a,
             In a (properties node_element) -> attr_name a <> "lang").
  { intros a [<-|[<-|[]]]; discriminate. }
  assert (Hp : properties node_element
               = ([mkAttr "role" "admin"] ++ mkAttr "dir" "rtl" :: [])%list)
    by reflexivity.
  assert (Hb : forall b, In b [mkAttr "role" "admin"] -> attr_name b <> "dir").
  { intros b [<-|[]]; discriminate. }
  pose proof (proj1 (read_attribute_name_miss_and_hit in_node [0%nat]
                       node_doc node_element "lang" He Hc Hd Hn) Habs)
    as Hmiss.
  pose proof (proj2 (read_attribute_name_miss_and_hit in_node [0%nat]
                       node_doc node_element "dir" He Hc Hd Hn)
                [mkAttr "role" "admin"] (mkAttr "dir" "rtl") []
                Hp eq_refl Hb) as Hhit.
  exact (conj He (conj Hc (conj Hd (conj Hn (conj Habs (conj Hmiss
    (conj Hp (conj Hb Hhit)))))))).
Defined.

(** The node document of the specification, call by call. *)
Example node_document_walk :
  let r1 := after [enter_element "node"] fresh_node in
  xml_reader_count_attributes r1 = Some 2
  /\ (exists r2,
        xml_reader_read_attribute_pos r1 0 = Some (true, r2)
        /\ xml_reader_get_attribute_value r2 = Some "admin"
        /\ (exists r3,
              xml_reader_read_attribute_name r2 "dir" = Some (true, r3)
              /\ xml_reader_get_attribute_value r3 = Some "rtl"
              /\ attr_cursor r3 = Some ([0%nat], 1%nat)
              /\ xml_reader_get_element_value r3 = Some "payload"
              /\ xml_reader_read_attribute_name r3 "lang" = Some (false, r3)
              /\ xml_reader_read_attribute_pos r3 2 = Some (false, r3))).
Proof.
  simpl. split; [reflexivity|].
  eexists. split; [reflexivity|]. split; [reflexivity|].
  eexists. split; [reflexivity|]. repeat split; reflexivity.
Qed.

(** C9.  [xml_reader_get_attribute_value] returns the cached attribute
    value whatever the error flag and the cursor are, whereas
    [xml_reader_get_element_value] returns nothing in the error state and
    [xml_reader_get_element_name] returns nothing in the error state or
    without a cursor. *)
Theorem get_attribute_value_unguarded reader :
  xml_reader_get_attribute_value reader = attr_value reader
  /\ xml_reader_get_element_value reader
     = (if error_state reader then None else cursor_value reader)
  /\ xml_reader_get_element_name reader
     = (if error_state reader then Some None
        else match node_cursor reader with
             | Some c =>
                 doc <- current_doc reader ;;
                 n <- node_at doc c ;; Some (name n)
             | None => Some None
             end).
Proof. repeat split; reflexivity. Qed.

(** The value selected on the node element is still returned after a failed
    start-element call has put the reader in the error state without a
    cursor; the element value and name are withheld there. *)
Example stale_attribute_value_in_error_state :
  let selected := after [enter_element "node"] fresh_node in
  exists r1,
    xml_reader_read_attribute_name selected "role" = Some (true, r1)
    /\ error_state (after [enter_element "missing"] r1) = true
    /\ node_cursor (after [enter_element "missing"] r1) = None
    /\ xml_reader_get_attribute_value (after [enter_element "missing"] r1)
       = Some "admin"
    /\ xml_reader_get_element_value (after [enter_element "missing"] r1)
       = None
    /\ xml_reader_get_element_name (after [enter_element "missing"] r1)
       = Some None.
Proof.
  simpl. eexists. split; [reflexivity|]. repeat split; reflexivity.
Qed.

(** ** The error query *)

(** C10.  [xml_reader_get_error] returns the error flag whatever the
    location passed; an empty location is filled with an error of the
    reader's domain that carries [last_error], in the error state or not;
    a [NULL] location yields no error object.  Each of the calls that
    consult the error state, the two cursor moves, the name, value,
    has-attributes and count readers and both attribute selections (the
    second through [xml_reader_has_attributes]), passes [NULL] and branches
    on the flag alone: with the flag set the start-element call, the readers
    and the selections return their failure value and leave the reader as it
    is, and the end-element call clears the flag and restores the saved
    parent. *)
Theorem get_error_fills_empty_location reader :
  (forall error, fst (xml_reader_get_error reader error) = error_state reader)
  /\ snd (xml_reader_get_error reader (Some None))
     = Some (Some (mkGError XML_READER_ERROR (last_error reader)
                     "XmlReader error"))
  /\ snd (xml_reader_get_error reader None) = None
  /\ (forall e, snd (xml_reader_get_error reader (Some (Some e)))
                = Some (Some e))
  /\ (forall nm,
        xml_reader_read_start_element reader nm
        = if fst (xml_reader_get_error reader None) then Some (false, reader)
          else xml_reader_read_start_element reader nm)
  /\ xml_reader_get_element_name reader
     = (if fst (xml_reader_get_error reader None) then Some None
        else xml_reader_get_element_name reader)
  /\ xml_reader_get_element_value reader
     = (if fst (xml_reader_get_error reader None) then None
        else xml_reader_get_element_value reader)
  /\ xml_reader_has_attributes reader
     = (if fst (xml_reader_get_error reader None) then Some false
        else xml_reader_has_attributes reader)
  /\ xml_reader_count_attributes reader
     = (if fst (xml_reader_get_error reader None) then Some (-1)
        else xml_reader_count_attributes reader)
  /\ (forall index_,
        xml_reader_read_attribute_pos reader index_
        = if fst (xml_reader_get_error reader None) then Some (false, reader)
          else xml_reader_read_attribute_pos reader index_)
  /\ (forall nm,
        xml_reader_read_attribute_name reader nm
        = if fst (xml_reader_get_error reader None) then Some (false, reader)
          else xml_reader_read_attribute_name reader nm)
  /\ xml_reader_read_end_element reader
     = (if fst (xml_reader_get_error reader None) then
          doc <- current_doc reader ;;
          match parent reader with
          | Some p =>
              _ <- node_at doc p ;;
              Some
                {| is_filename := is_filename reader;
                   filename := filename reader;
                   error_state := false;
                   last_error := last_error reader;
                   depth := depth reader;
                   current_doc := current_doc reader;
                   parent := node_parent p;
                   node_cursor := Some p;
                   attr_cursor := attr_cursor reader;
                   cursor_value := cursor_value reader;
                   attr_value := attr_value reader |}
          | None =>
              Some
                {| is_filename := is_filename reader;
                   filename := filename reader;
                   error_state := false;
                   last_error := last_error reader;
                   depth := depth reader;
                   current_doc := current_doc reader;
                   parent := None;
                   node_cursor := xmlRootNode doc;
                   attr_cursor := attr_cursor reader;
                   cursor_value := cursor_value reader;
                   attr_value := attr_value reader |}
          end
        else xml_reader_read_end_element reader)
  /\ xml_reader_get_element_value reader
     = (if error_state reader then None else cursor_value reader)
  /\ xml_reader_get_element_name reader
     = (if error_state reader then Some None
        else match node_cursor reader with
             | Some c =>
                 doc <- current_doc reader ;;
                 n <- node_at doc c ;; Some (name n)
             | None => Some None
             end).
Proof.
  repeat split; try reflexivity; intros;
    unfold xml_reader_read_start_element, xml_reader_get_element_name,
      xml_reader_get_element_value, xml_reader_count_attributes,
      xml_reader_read_attribute_pos, xml_reader_read_attribute_name,
      xml_reader_read_end_element, xml_reader_has_attributes, bind;
    simpl; destruct (error_state reader); try reflexivity.
  - destruct (node_cursor reader); reflexivity.
  - destruct (parent reader); destruct (current_doc reader); reflexivity.
Qed.

(** A healthy reader still hands out an error object. *)
Example get_error_on_healthy_reader :
  xml_reader_get_error in_book (Some None)
  = (false,
     Some (Some (mkGError "xml-reader-error-quark" XML_READER_ERROR_INVALID
                   "XmlReader error"))).
Proof. reflexivity. Qed.

(** ** Loading over a reader in the error state *)

(** What a successful load resets, and what it keeps. *)
Lemma load_from_data_fields xmlReadMemory reader buffer error doc :
  xmlReadMemory buffer = Some doc ->
  exists fresh,
    xml_reader_load_from_data xmlReadMemory reader buffer error
    = Some (true, error, fresh)
    /\ current_doc fresh = Some doc
    /\ node_cursor fresh = None
    /\ parent fresh = xmlRootNode doc
    /\ depth fresh = 0
    /\ attr_cursor fresh = None
    /\ cursor_value fresh = None
    /\ attr_value fresh = None
    /\ error_state fresh = error_state reader
    /\ last_error fresh = last_error reader.
Proof.
  intro Hparse. unfold xml_reader_load_from_data. cbv zeta. rewrite Hparse.
  eexists. repeat split; reflexivity.
Qed.

(** C1 (the code departs from it).  A reader put in the error state by a
    failed start-element call on the book document loads the node document:
    the load returns [TRUE] and resets the cursor, the depth, the attribute
    selection and both cached values, but the error flag is still set, so
    the start-element call that names the new root returns [FALSE] and
    changes nothing. *)
Theorem load_keeps_error_state :
  error_state (after [enter_element "missing"] fresh_book) = true
  /\ xml_reader_load_from_data sample_parser
       (after [enter_element "missing"] fresh_book) "node" None
     = Some (true, None,
             load_sample (after [enter_element "missing"] fresh_book) "node")
  /\ node_cursor
       (load_sample (after [enter_element "missing"] fresh_book) "node")
     = None
  /\ depth (load_sample (after [enter_element "missing"] fresh_book) "node")
     = 0
  /\ error_state
       (load_sample (after [enter_element "missing"] fresh_book) "node")
     = true
  /\ xml_reader_read_start_element
       (load_sample (after [enter_element "missing"] fresh_book) "node")
       "node"
     = Some (false,
             load_sample (after [enter_element "missing"] fresh_book) "node")
  /\ xml_reader_read_start_element fresh_node "node" = Some (true, in_node).
Proof. repeat split; reflexivity. Qed.

(** ** The cached text *)

(** C2 (the code departs from it).  In [<a>text<b><c/></b></a>], entering
    [a] caches its leading text; entering [b], whose first child is the
    element [c], succeeds and leaves that cache in place, so the value
    reported for [b] is the text of [a]. *)
Theorem enter_keeps_stale_text :
  xml_reader_read_start_element
    (after [enter_element "a"] fresh_mixed) "b"
  = Some (true, after [enter_element "a"; enter_element "b"] fresh_mixed)
  /\ xml_reader_get_element_name
       (after [enter_element "a"; enter_element "b"] fresh_mixed)
     = Some (Some "b")
  /\ (n <- node_at mixed_doc [1%nat; 0%nat] ;;
      Some (map type (firstn 1 (children n))))
     = Some [XML_ELEMENT_NODE]
  /\ xml_reader_get_element_value
       (after [enter_element "a"; enter_element "b"] fresh_mixed)
     = Some "text"
  /\ xml_reader_get_element_value (after [enter_element "a"] fresh_mixed)
     = Some "text".
Proof. repeat split; reflexivity. Qed.

(** * Further properties of the traversal *)

(** ** Which element a start-element call selects *)

Lemma find_element_test nm l : forall i,
  find_element nm l i
  = match l with
    | [] => None
    | n :: rest =>
        if element_named nm n then Some (i, n)
        else find_element nm rest (S i)
    end.
Proof. destruct l; reflexivity. Qed.

Lemma find_element_first nm l : forall i j node,
  find_element nm l i = Some (j, node) ->
  forall k n,
    (k < j - i)%nat -> nth_error l k = Some n -> element_named nm n = false.
Proof.
  induction l as [|m rest IH]; intros i j node H k n Hk Hn.
  - discriminate H.
  - rewrite find_element_test in H.
    destruct (element_named nm m) eqn:Hm.
    + injection H as <- <-. lia.
    + destruct k as [|k]; simpl in Hn.
      * now injection Hn as <-.
      * apply (IH (S i) j node H k n); [lia | exact Hn].
Qed.

Lemma find_element_existsb nm l : forall i,
  (exists r, find_element nm l i = Some r)
  <-> existsb (element_named nm) l = true.
Proof.
  induction l as [|m rest IH]; intro i.
  - simpl. split; [intros [r H]; discriminate H | discriminate].
  - rewrite find_element_test. simpl.
    destruct (element_named nm m); simpl.
    + split; [reflexivity | eauto].
    + apply IH.
Qed.

(** X1.  A successful start-element call selects the first candidate that is
    an element with the name: the cursor is on the child at some position
    [i] of the node scanned (the cursor, or the document when there is
    none), that child is an element named as asked, and no child before it
    is. *)
Theorem read_start_element_selects_first reader nm r' :
  xml_reader_read_start_element reader nm = Some (true, r') ->
  exists doc holder i node,
    current_doc reader = Some doc
    /\ node_at doc (scan_base reader) = Some holder
    /\ node_cursor r' = Some (i :: scan_base reader)
    /\ nth_error (children holder) i = Some node
    /\ element_named nm node = true
    /\ (forall k n,
          (k < i)%nat -> nth_error (children holder) k = Some n ->
          element_named nm n = false).
Proof.
  intro H. apply read_start_element_true in H.
  destruct H as (doc & holder & i & node & _ & Hdoc & Hholder & Hfind
                 & Hc' & _).
  exists doc, holder, i, node.
  pose proof (find_element_Some _ _ _ _ _ Hfind) as (_ & Hnth & Hty & Hnm).
  rewrite Nat.sub_0_r in Hnth.
  repeat split; auto.
  - unfold element_named. rewrite Hty, Hnm, String.eqb_refl. reflexivity.
  - intros k n Hk Hn.
    apply (find_element_first _ _ _ _ _ Hfind k n); [lia | exact Hn].
Qed.

Lemma read_start_element_selects_first_witness :
  xml_reader_read_start_element in_book "title"
  = Some (true, after [enter_element "title"] in_book)
  /\ exists doc holder i node,
       current_doc in_book = Some doc
       /\ node_at doc (scan_base in_book) = Some holder
       /\ node_cursor (after [enter_element "title"] in_book)
          = Some (i :: scan_base in_book)
       /\ nth_error (children holder) i = Some node
       /\ element_named "title" node = true
       /\ (forall k n,
             (k < i)%nat -> nth_error (children holder) k = Some n ->
             element_named "title" n = false).
Proof.
  assert (H : xml_reader_read_start_element in_book "title"
              = Some (true, after [enter_element "title"] in_book))
    by reflexivity.
  exact (conj H (read_start_element_selects_first _ _ _ H)).
Defined.

(** X2.  On a reader that is not in the error state, holds a document and
    whose cursor (if any) is valid, with a depth below [G_MAXINT], a
    start-element call is defined and returns [TRUE] exactly when some
    candidate is an element with the name; otherwise it returns [FALSE] and
    the reader is in the error state. *)
Theorem read_start_element_succeeds_iff reader nm doc holder :
  error_state reader = false ->
  current_doc reader = Some doc ->
  node_at doc (scan_base reader) = Some holder ->
  G_MININT <= depth reader < G_MAXINT ->
  exists b r',
    xml_reader_read_start_element reader nm = Some (b, r')
    /\ b = existsb (element_named nm) (children holder)
    /\ error_state r' = negb b.
Proof.
  intros He Hdoc Hholder Hd.
  unfold xml_reader_read_start_element, bind. simpl.
  rewrite He, Hdoc, Hholder.
  destruct (find_element nm (children holder) 0) as [[i node]|] eqn:Hfind.
  - rewrite gint_result_in_range by lia.
    assert (Hex : existsb (element_named nm) (children holder) = true)
      by (apply (find_element_existsb nm _ 0%nat); eauto).
    do 2 eexists. split; [reflexivity|]. rewrite Hex. simpl. auto.
  - assert (Hex : existsb (element_named nm) (children holder) = false).
    { destruct (existsb (element_named nm) (children holder)) eqn:Hb;
        [|reflexivity].
      apply (find_element_existsb nm _ 0%nat) in Hb.
      destruct Hb as [r Hr]. congruence. }
    do 2 eexists. split; [reflexivity|]. rewrite Hex. simpl. auto.
Qed.

Lemma read_start_element_succeeds_iff_witness :
  error_state in_book = false
  /\ current_doc in_book = Some book_doc
  /\ node_at book_doc (scan_base in_book)
     = Some (element "book" []
               [element "author" [] [text "Jane"];
                element "title" [] [text "Go"]])
  /\ G_MININT <= depth in_book < G_MAXINT
  /\ exists b r',
       xml_reader_read_start_element in_book "Jane" = Some (b, r')
       /\ b = existsb (element_named "Jane")
                (children (element "book" []
                             [element "author" [] [text "Jane"];
                              element "title" [] [text "Go"]]))
       /\ error_state r' = negb b.
Proof.
  assert (He : error_state in_book = false) by reflexivity.
  assert (Hd : current_doc in_book = Some book_doc) by reflexivity.
  assert (Hh : node_at book_doc (scan_base in_book)
               = Some (element "book" []
                         [element "author" [] [text "Jane"];
                          element "title" [] [text "Go"]]))
    by reflexivity.
  assert (Hr : G_MININT <= depth in_book < G_MAXINT)
    by (vm_compute; split; [discriminate | reflexivity]).
  exact (conj He (conj Hd (conj Hh (conj Hr
    (read_start_element_succeeds_iff in_book "Jane" _ _ He Hd Hh Hr))))).
Defined.

(** The outcome of a start-element call depends on the reader through its
    error flag, document, cursor and depth only. *)
Lemma read_start_element_same_position s s' nm b t :
  error_state s' = error_state s ->
  current_doc s' = current_doc s ->
  node_cursor s' = node_cursor s ->
  depth s' = depth s ->
  xml_reader_read_start_element s nm = Some (b, t) ->
  exists t',
    xml_reader_read_start_element s' nm = Some (b, t')
    /\ node_cursor t' = node_cursor t
    /\ depth t' = depth t
    /\ error_state t' = error_state t.
Proof.
  intros He Hdoc Hc Hd.
  unfold xml_reader_read_start_element, scan_base, bind. simpl.
  rewrite He, Hdoc, Hc, Hd.
  destruct (error_state s) eqn:Hes.
  - intro H. injection H as <- <-. eexists. split; [reflexivity|].
    repeat split; congruence.
  - destruct (current_doc s) as [doc|]; [|discriminate].
    destruct (node_at doc match node_cursor s with
                          | Some c => c
                          | None => []
                          end) as [holder|]; [|discriminate].
    destruct (find_element nm (children holder) 0) as [[i node]|].
    + destruct (gint_result (depth s + 1)) as [d|]; [|discriminate].
      intro H. injection H as <- <-. eexists. split; [reflexivity|].
      simpl. auto.
    + intro H. injection H as <- <-. eexists. split; [reflexivity|].
      simpl. auto.
Qed.

(** X3.  From a cursor on a node, a start-element call made after a balanced
    sequence of successful calls does what it would have done before the
    sequence: same return value, same cursor, same depth.  So entering a
    name again after leaving always reaches the same element; later siblings
    of that name are never reached. *)
Theorem read_start_element_after_balanced w s c s' nm b t :
  balanced w ->
  node_cursor s = Some c ->
  run_successful w s = Some s' ->
  xml_reader_read_start_element s nm = Some (b, t) ->
  exists t',
    xml_reader_read_start_element s' nm = Some (b, t')
    /\ node_cursor t' = node_cursor t
    /\ depth t' = depth t.
Proof.
  intros Hbal Hc Hrun Henter.
  destruct (balanced_run_positioned w Hbal s c s' Hc Hrun)
    as (Hc' & Hd & He & Hdoc & _).
  assert (Hcc : node_cursor s' = node_cursor s) by congruence.
  destruct (read_start_element_same_position s s' nm b t He Hdoc Hcc Hd
              Henter) as (t' & Ht' & Hct & Hdt & _).
  eauto.
Qed.

Lemma read_start_element_after_balanced_witness :
  balanced [enter_element "author"; leave_element]
  /\ node_cursor in_book = Some [0%nat]
  /\ run_successful [enter_element "author"; leave_element] in_book
     = Some (after [enter_element "author"; leave_element] in_book)
  /\ xml_reader_read_start_element in_book "author"
     = Some (true, after [enter_element "author"] in_book)
  /\ exists t',
       xml_reader_read_start_element
         (after [enter_element "author"; leave_element] in_book) "author"
       = Some (true, t')
       /\ node_cursor t' = node_cursor (after [enter_element "author"] in_book)
       /\ depth t' = depth (after [enter_element "author"] in_book).
Proof.
  assert (Hb : balanced [enter_element "author"; leave_element])
    by (apply (balanced_enter "author" [] []); apply balanced_nil).
  assert (Hc : node_cursor in_book = Some [0%nat]) by reflexivity.
  assert (Hr : run_successful [enter_element "author"; leave_element] in_book
               = Some (after [enter_element "author"; leave_element] in_book))
    by reflexivity.
  assert (He : xml_reader_read_start_element in_book "author"
               = Some (true, after [enter_element "author"] in_book))
    by reflexivity.
  exact (conj Hb (conj Hc (conj Hr (conj He
    (read_start_element_after_balanced _ _ _ _ _ _ _ Hb Hc Hr He))))).
Defined.

(** ** The cached values across calls *)

(** X4.  After a successful start-element call the value reported for the
    element is the content of its first child when that child is a text
    node; when the element has no child or its first child is not text, it
    is whatever value was cached before the call.  The attribute value is
    reset and the attribute cursor is on the element's first attribute. *)
Theorem read_start_element_value reader nm r' :
  xml_reader_read_start_element reader nm = Some (true, r') ->
  exists doc c n,
    current_doc r' = Some doc
    /\ node_cursor r' = Some c
    /\ node_at doc c = Some n
    /\ xml_reader_get_element_value r'
       = match children n with
         | child :: _ =>
             if xmlNodeIsText child then content child
             else cursor_value reader
         | [] => cursor_value reader
         end
    /\ attr_cursor r' = properties_ptr c n
    /\ xml_reader_get_attribute_value r' = None.
Proof.
  unfold xml_reader_read_start_element, bind. simpl. intro H.
  destruct (error_state reader) eqn:He; [discriminate H|].
  destruct (current_doc reader) as [doc|] eqn:Hdoc; [|discriminate H].
  destruct (node_at doc (scan_base reader)) as [holder|] eqn:Hholder;
    [|discriminate H].
  destruct (find_element nm (children holder) 0) as [[i node]|] eqn:Hfind;
    [|discriminate H].
  destruct (gint_result (depth reader + 1)) as [d|]; [|discriminate H].
  injection H as <-.
  apply find_element_Some in Hfind. destruct Hfind as (_ & Hnth & _).
  rewrite Nat.sub_0_r in Hnth.
  exists doc, (i :: scan_base reader), node.
  unfold xml_reader_get_element_value, xml_reader_get_attribute_value.
  simpl. rewrite Hholder. simpl. auto 7.
Qed.

Lemma read_start_element_value_witness :
  xml_reader_read_start_element in_book "author"
  = Some (true, after [enter_element "author"] in_book)
  /\ exists doc c n,
       current_doc (after [enter_element "author"] in_book) = Some doc
       /\ node_cursor (after [enter_element "author"] in_book) = Some c
       /\ node_at doc c = Some n
       /\ xml_reader_get_element_value (after [enter_element "author"] in_book)
          = match children n with
            | child :: _ =>
                if xmlNodeIsText child then content child
                else cursor_value in_book
            | [] => cursor_value in_book
            end
       /\ attr_cursor (after [enter_element "author"] in_book)
          = properties_ptr c n
       /\ xml_reader_get_attribute_value
            (after [enter_element "author"] in_book) = None.
Proof.
  assert (H : xml_reader_read_start_element in_book "author"
              = Some (true, after [enter_element "author"] in_book))
    by reflexivity.
  exact (conj H (read_start_element_value _ _ _ H)).
Defined.

(** X5.  A balanced sequence of successful calls that is not empty brings
    the cursor back but not the cached values: the element value, the
    attribute value and the attribute cursor are all empty afterwards, even
    when the element under the cursor has a leading text. *)
Theorem balanced_calls_clear_caches w s c s' :
  balanced w ->
  w <> [] ->
  node_cursor s = Some c ->
  run_successful w s = Some s' ->
  node_cursor s' = Some c
  /\ xml_reader_get_element_value s' = None
  /\ xml_reader_get_attribute_value s' = None
  /\ attr_cursor s' = None.
Proof.
  intros Hbal. revert s c s'.
  induction Hbal as [|nm inner rest Hinner _ Hrest IHrest];
    intros s c s' Hne Hc Hrun; [congruence|].
  simpl in Hrun.
  destruct (xml_reader_read_start_element s nm) as [[b s1]|] eqn:Henter;
    simpl in Hrun; [|discriminate Hrun].
  destruct b; [|discriminate Hrun].
  apply read_start_element_true in Henter.
  destruct Henter as (doc & holder & i & node & _ & _ & _ & _
                      & Hc1 & Hp1 & _ & He1 & _).
  unfold scan_base in Hc1. rewrite Hc in Hc1, Hp1.
  rewrite run_successful_app in Hrun.
  destruct (run_successful inner s1) as [s2|] eqn:Hin; simpl in Hrun;
    [|discriminate Hrun].
  destruct (balanced_run_positioned inner Hinner _ _ _ Hc1 Hin)
    as (Hc2 & _ & He2 & _ & Hp2).
  assert (Hp2' : parent s2 = Some c)
    by (destruct Hp2 as [Hp2|Hp2]; rewrite Hp2; auto).
  destruct (xml_reader_read_end_element s2) as [s3|] eqn:Hleave;
    simpl in Hrun; [|discriminate Hrun].
  rewrite He1 in He2.
  apply (read_end_element_positioned _ _ _ He2 Hc2) in Hleave.
  destruct Hleave as (doc' & _ & _ & He3 & _ & _ & Hres & Ha3 & Hv3 & Hav3).
  unfold restored in Hres. rewrite Hp2' in Hres. destruct Hres as [Hc3 _].
  destruct rest as [|call rest'].
  - simpl in Hrun. injection Hrun as <-.
    unfold xml_reader_get_element_value, xml_reader_get_attribute_value.
    simpl. rewrite He3. auto.
  - apply (IHrest s3 c s'); [discriminate | exact Hc3 | exact Hrun].
Qed.

Lemma balanced_calls_clear_caches_witness :
  balanced [enter_element "b"; leave_element]
  /\ [enter_element "b"; leave_element] <> []
  /\ node_cursor (after [enter_element "a"] fresh_mixed) = Some [0%nat]
  /\ run_successful [enter_element "b"; leave_element]
       (after [enter_element "a"] fresh_mixed)
     = Some (after [enter_element "a"; enter_element "b"; leave_element]
               fresh_mixed)
  /\ node_cursor (after [enter_element "a"; enter_element "b"; leave_element]
                    fresh_mixed) = Some [0%nat]
  /\ xml_reader_get_element_value
       (after [enter_element "a"; enter_element "b"; leave_element]
          fresh_mixed) = None
  /\ xml_reader_get_attribute_value
       (after [enter_element "a"; enter_element "b"; leave_element]
          fresh_mixed) = None
  /\ attr_cursor (after [enter_element "a"; enter_element "b"; leave_element]
                    fresh_mixed) = None.
Proof.
  assert (Hb : balanced [enter_element "b"; leave_element])
    by (apply (balanced_enter "b" [] []); apply balanced_nil).
  assert (Hn : [enter_element "b"; leave_element] <> []) by discriminate.
  assert (Hc : node_cursor (after [enter_element "a"] fresh_mixed)
               = Some [0%nat]) by reflexivity.
  assert (Hr : run_successful [enter_element "b"; leave_element]
                 (after [enter_element "a"] fresh_mixed)
               = Some (after [enter_element "a"; enter_element "b";
                              leave_element] fresh_mixed))
    by reflexivity.
  exact (conj Hb (conj Hn (conj Hc (conj Hr
    (balanced_calls_clear_caches _ _ _ _ Hb Hn Hc Hr))))).
Defined.

(** X6.  A failed start-element call made on a node, followed by the
    end-element call that clears the error, keeps both cached values: the
    element value and the attribute value reported afterwards are the ones
    reported before.  The attribute cursor is lost. *)
Theorem failed_enter_then_leave_keeps_values s nm s1 s2 c :
  error_state s = false ->
  node_cursor s = Some c ->
  xml_reader_read_start_element s nm = Some (false, s1) ->
  xml_reader_read_end_element s1 = Some s2 ->
  xml_reader_get_element_value s2 = xml_reader_get_element_value s
  /\ xml_reader_get_attribute_value s2 = xml_reader_get_attribute_value s
  /\ attr_cursor s2 = None.
Proof.
  intros He Hc Henter Hleave.
  destruct (read_start_element_false _ _ _ Henter He)
    as (doc & _ & He1 & _ & _ & Ha1 & _ & _ & _ & _ & Hv1 & Hav1).
  destruct (read_end_element_recover _ _ He1 Hleave)
    as (doc' & _ & _ & He2 & _ & _ & _ & Hv2 & Hav2).
  unfold xml_reader_get_element_value, xml_reader_get_attribute_value.
  simpl. rewrite He, He2.
  repeat split; try congruence.
  revert Hleave. unfold xml_reader_read_end_element, bind. simpl.
  rewrite He1.
  destruct (parent s1) as [p|]; destruct (current_doc s1) as [d|];
    try discriminate.
  - destruct (node_at d p); [|discriminate].
    intro H. injection H as <-. exact Ha1.
  - intro H. injection H as <-. exact Ha1.
Qed.

Lemma failed_enter_then_leave_keeps_values_witness :
  error_state (after [enter_element "author"] in_book) = false
  /\ node_cursor (after [enter_element "author"] in_book)
     = Some [0%nat; 0%nat]
  /\ xml_reader_read_start_element
       (after [enter_element "author"] in_book) "missing"
     = Some (false, after [enter_element "author"; enter_element "missing"]
                      in_book)
  /\ xml_reader_read_end_element
       (after [enter_element "author"; enter_element "missing"] in_book)
     = Some (after [enter_element "author"; enter_element "missing";
                    leave_element] in_book)
  /\ xml_reader_get_element_value
       (after [enter_element "author"; enter_element "missing";
               leave_element] in_book)
     = xml_reader_get_element_value (after [enter_element "author"] in_book)
  /\ xml_reader_get_attribute_value
       (after [enter_element "author"; enter_element "missing";
               leave_element] in_book)
     = xml_reader_get_attribute_value
         (after [enter_element "author"] in_book)
  /\ attr_cursor (after [enter_element "author"; enter_element "missing";
                         leave_element] in_book) = None.
Proof.
  assert (He : error_state (after [enter_element "author"] in_book) = false)
    by reflexivity.
  assert (Hc : node_cursor (after [enter_element "author"] in_book)
               = Some [0%nat; 0%nat]) by reflexivity.
  assert (Hf : xml_reader_read_start_element
                 (after [enter_element "author"] in_book) "missing"
               = Some (false,
                       after [enter_element "author";
                              enter_element "missing"] in_book))
    by reflexivity.
  assert (Hl : xml_reader_read_end_element
                 (after [enter_element "author"; enter_element "missing"]
                    in_book)
               = Some (after [enter_element "author";
                              enter_element "missing"; leave_element]
                         in_book))
    by reflexivity.
  exact (conj He (conj Hc (conj Hf (conj Hl
    (failed_enter_then_leave_keeps_values _ _ _ _ _ He Hc Hf Hl))))).
Defined.

(** ** More invariants of the reachable states *)

Lemma node_at_prefix doc i q :
  node_at doc (i :: q) <> None -> node_at doc q <> None.
Proof.
  simpl. unfold bind. destruct (node_at doc q); congruence.
Qed.

Lemma valid_ptr_node_parent doc p :
  valid_ptr doc (Some p) -> valid_ptr doc (node_parent p).
Proof.
  destruct p as [|i q]; simpl; [trivial|]. apply node_at_prefix.
Qed.

Lemma valid_ptr_xmlRootNode doc : valid_ptr doc (xmlRootNode doc).
Proof.
  unfold xmlRootNode, valid_ptr.
  destruct (children doc) as [|n rest] eqn:Hkids; [trivial|].
  simpl. rewrite Hkids. discriminate.
Qed.

Lemma well_formed_fresh fresh : freshly_loaded fresh -> well_formed fresh.
Proof.
  intro H. apply freshly_loaded_fields in H.
  destruct H as (Hd & Hc & _ & _ & _ & doc & Hdoc & Hp).
  exists doc. rewrite Hc, Hp, Hd. repeat split; auto.
  - apply valid_ptr_xmlRootNode.
  - discriminate.
  - discriminate.
Qed.

Lemma well_formed_enter s nm b s' :
  well_formed s ->
  xml_reader_read_start_element s nm = Some (b, s') ->
  well_formed s'.
Proof.
  intros (doc & Hdoc & Hvc & Hvp & Hr).
  unfold xml_reader_read_start_element, bind. simpl. rewrite Hdoc.
  destruct (error_state s).
  - intro H. injection H as <- <-. exists doc. auto.
  - destruct (node_at doc (scan_base s)) as [holder|] eqn:Hh; [|discriminate].
    destruct (find_element nm (children holder) 0) as [[i node]|] eqn:Hf.
    + destruct (gint_result (depth s + 1)) as [d|] eqn:Hd; [|discriminate].
      intro H. injection H as <- <-.
      apply gint_result_Some in Hd. destruct Hd as [-> Hrange].
      apply find_element_Some in Hf. destruct Hf as (_ & Hnth & _).
      rewrite Nat.sub_0_r in Hnth.
      exists doc. simpl. rewrite Hh. simpl. rewrite Hnth.
      repeat split; auto; try discriminate; apply Hrange.
    + intro H. injection H as <- <-. exists doc. simpl.
      repeat split; auto; try apply Hr.
      destruct (node_cursor s); [exact Hvc | apply valid_ptr_xmlRootNode].
Qed.

Lemma well_formed_leave s s' :
  well_formed s ->
  xml_reader_read_end_element s = Some s' ->
  well_formed s'.
Proof.
  intros (doc & Hdoc & Hvc & Hvp & Hr).
  unfold xml_reader_read_end_element, bind. simpl. rewrite Hdoc.
  destruct (error_state s).
  - destruct (parent s) as [p|] eqn:Hp.
    + destruct (node_at doc p) eqn:Hn; [|discriminate].
      intro H. injection H as <-. exists doc. simpl.
      repeat split; auto; try apply Hr.
      apply (valid_ptr_node_parent doc p Hvp).
    + intro H. injection H as <-. exists doc. simpl.
      repeat split; auto; try apply Hr. apply valid_ptr_xmlRootNode.
  - destruct (node_cursor s) as [c|] eqn:Hc.
    + destruct (gint_result (depth s - 1)) as [d|] eqn:Hd; [|discriminate].
      apply gint_result_Some in Hd. destruct Hd as [-> Hrange].
      destruct (parent s) as [p|] eqn:Hp.
      * destruct (node_at doc p) eqn:Hn; [|discriminate].
        intro H. injection H as <-. exists doc. simpl.
        repeat split; auto; try apply Hrange.
        apply (valid_ptr_node_parent doc p Hvp).
      * intro H. injection H as <-. exists doc. simpl.
        repeat split; auto; try apply Hrange. apply valid_ptr_xmlRootNode.
    + intro H. injection H as <-. exists doc. rewrite Hc. auto.
Qed.

Lemma run_app w1 : forall w2 s,
  run (w1 ++ w2) s = s1 <- run w1 s ;; run w2 s1.
Proof.
  induction w1 as [|c w1 IH]; simpl; intros w2 s; [reflexivity|].
  destruct (step c s) as [[b s1]|]; simpl; [apply IH | reflexivity].
Qed.

Lemma run_enters_in_error names : forall s,
  error_state s = true ->
  run (map enter_element names) s = Some s.
Proof.
  induction names as [|nm names IH]; simpl; intros s He; [reflexivity|].
  rewrite (read_start_element_in_error s nm He). simpl. now apply IH.
Qed.

Section ReachableStates.

Variable fresh : XmlReaderPrivate.
Hypothesis Hfresh : freshly_loaded fresh.

Lemma reachable_pointers_valid s :
  reachable fresh s ->
  well_formed s.
Proof.
  induction 1 as [|s nm b s' _ IH Henter|s s' _ IH Hleave].
  - now apply well_formed_fresh.
  - now apply (well_formed_enter s nm b).
  - now apply (well_formed_leave s).
Qed.

(** X7.  Every state reached from a freshly loaded document by
    start-element and end-element calls holds the document, has a cursor and
    a saved parent that are [NULL] or point to nodes of that document, and a
    depth within [gint]: no call leaves a dangling pointer behind. *)
Theorem reachable_well_formed s :
  reachable fresh s ->
  exists doc,
    current_doc s = Some doc
    /\ current_doc fresh = Some doc
    /\ valid_ptr doc (node_cursor s)
    /\ valid_ptr doc (parent s)
    /\ G_MININT <= depth s <= G_MAXINT.
Proof.
  intro Hreach.
  destruct (reachable_pointers_valid s Hreach) as (doc & Hdoc & Hrest).
  exists doc. split; [exact Hdoc|]. split; [|exact Hrest].
  clear Hrest. revert doc Hdoc.
  induction Hreach as [|s nm b s' _ IH Henter|s s' _ IH Hleave];
    intros doc Hdoc; [exact Hdoc | |].
  - apply IH. revert Henter Hdoc.
    unfold xml_reader_read_start_element, bind. simpl.
    destruct (error_state s); [intro H; now injection H as <- <-|].
    destruct (current_doc s) as [d|]; [|discriminate].
    destruct (node_at d (scan_base s)) as [holder|]; [|discriminate].
    destruct (find_element nm (children holder) 0) as [[i node]|].
    + destruct (gint_result (depth s + 1)); [|discriminate].
      intro H. injection H as <- <-. simpl. auto.
    + intro H. injection H as <- <-. simpl. auto.
  - apply IH. revert Hleave Hdoc.
    unfold xml_reader_read_end_element, bind. simpl.
    destruct (error_state s).
    + destruct (parent s) as [p|]; destruct (current_doc s) as [d|];
        try discriminate.
      * destruct (node_at d p); [|discriminate].
        intro H. injection H as <-. simpl. auto.
      * intro H. injection H as <-. simpl. auto.
    + destruct (node_cursor s) as [c|]; [|intro H; now injection H as <-].
      destruct (gint_result (depth s - 1)); [|discriminate].
      destruct (current_doc s) as [d|]; [|discriminate].
      destruct (parent s) as [p|].
      * destruct (node_at d p); [|discriminate].
        intro H. injection H as <-. simpl. auto.
      * intro H. injection H as <-. simpl. auto.
Qed.

(** X8.  In every reachable state that is in the error state there is no
    cursor and no attribute cursor, so the name reader returns nothing and
    the attribute queries fail. *)
Theorem reachable_error_state_unpositioned s :
  reachable fresh s ->
  error_state s = true ->
  node_cursor s = None
  /\ attr_cursor s = None
  /\ xml_reader_get_element_name s = Some None
  /\ xml_reader_has_attributes s = Some false
  /\ xml_reader_count_attributes s = Some (-1).
Proof.
  intros Hreach He.
  assert (H : node_cursor s = None /\ attr_cursor s = None).
  { induction Hreach as [|s nm b s' _ IH Henter|s s' _ IH Hleave].
    - destruct (freshly_loaded_fields fresh Hfresh) as (_ & Hc & Ha & _).
      auto.
    - destruct b.
      + apply read_start_element_true in Henter.
        destruct Henter as (doc & holder & i & node & _ & _ & _ & _
                            & _ & _ & _ & He' & _).
        congruence.
      + destruct (error_state s) eqn:Hes.
        * rewrite (read_start_element_in_error s nm Hes) in Henter.
          injection Henter as <-. now apply IH.
        * destruct (read_start_element_false _ _ _ Henter Hes)
            as (doc & _ & _ & _ & Hc' & Ha' & _).
          auto.
    - destruct (error_state s) eqn:Hes.
      + destruct (read_end_element_recover _ _ Hes Hleave)
          as (doc & _ & _ & He' & _).
        congruence.
      + destruct (node_cursor s) as [c|] eqn:Hc.
        * destruct (read_end_element_positioned _ _ _ Hes Hc Hleave)
            as (doc & _ & _ & He' & _).
          congruence.
        * rewrite (read_end_element_unpositioned s Hes Hc) in Hleave.
          injection Hleave as <-. congruence. }
  destruct H as [Hc Ha]. repeat split; auto.
  - now apply get_element_name_in_error.
  - unfold xml_reader_has_attributes. simpl. now rewrite He.
  - unfold xml_reader_count_attributes. simpl. now rewrite He.
Qed.

Lemma reachable_parent_linked s :
  reachable fresh s ->
  parent_linked s.
Proof.
  assert (Hrestored : forall doc s s',
            restored doc s s' -> parent_linked s').
  { intros doc t t' Hres c Hc. unfold restored in Hres.
    destruct (parent t) as [p|].
    - destruct Hres as [Hc' Hp']. left. congruence.
    - destruct Hres as [Hc' Hp']. right. split; [exact Hp'|].
      rewrite Hc in Hc'. unfold xmlRootNode in Hc'.
      destruct (children doc); [discriminate|].
      injection Hc' as ->. eauto. }
  induction 1 as [|s nm b s' _ IH Henter|s s' _ IH Hleave].
  - destruct (freshly_loaded_fields fresh Hfresh) as (_ & Hc & _).
    intros c Hc'. congruence.
  - destruct b.
    + apply read_start_element_true in Henter.
      destruct Henter as (doc & holder & i & node & _ & _ & _ & _
                          & Hc' & Hp' & _).
      intros c Hc. rewrite Hc' in Hc. injection Hc as <-.
      unfold scan_base. destruct (node_cursor s) as [c0|].
      * left. exact Hp'.
      * right. split; [exact Hp' | eauto].
    + destruct (error_state s) eqn:Hes.
      * rewrite (read_start_element_in_error s nm Hes) in Henter.
        now injection Henter as <-.
      * destruct (read_start_element_false _ _ _ Henter Hes)
          as (doc & _ & _ & _ & Hc' & _).
        intros c Hc. congruence.
  - destruct (error_state s) eqn:Hes.
    + destruct (read_end_element_recover _ _ Hes Hleave)
        as (doc & _ & _ & _ & _ & _ & Hres & _).
      exact (Hrestored doc s s' Hres).
    + destruct (node_cursor s) as [c|] eqn:Hc.
      * destruct (read_end_element_positioned _ _ _ Hes Hc Hleave)
          as (doc & _ & _ & _ & _ & _ & Hres & _).
        exact (Hrestored doc s s' Hres).
      * rewrite (read_end_element_unpositioned s Hes Hc) in Hleave.
        now injection Hleave as <-.
Qed.

(** X9.  In every reachable state outside the error state whose cursor is
    on a node below the top level, an end-element call whose decrement stays
    within [gint] is defined and moves the cursor to the element that
    contains the node: the one saved [parent] pointer is enough to walk up
    any number of levels. *)
Theorem reachable_leave_moves_to_container s i j q :
  reachable fresh s ->
  error_state s = false ->
  node_cursor s = Some (i :: j :: q) ->
  G_MININT < depth s ->
  exists s',
    xml_reader_read_end_element s = Some s'
    /\ node_cursor s' = Some (j :: q)
    /\ parent s' = node_parent (j :: q)
    /\ depth s' = depth s - 1
    /\ error_state s' = false.
Proof.
  intros Hreach He Hc Hd.
  destruct (reachable_pointers_valid s Hreach)
    as (doc & Hdoc & Hvc & Hvp & Hr).
  destruct (reachable_parent_linked s Hreach _ Hc) as [Hp|[_ [k Hk]]];
    [|discriminate Hk].
  simpl in Hp. rewrite Hp in Hvp. simpl in Hvp.
  unfold xml_reader_read_end_element, bind. simpl.
  rewrite He, Hc, Hdoc, Hp.
  rewrite gint_result_in_range by lia.
  destruct (node_at doc (j :: q)) eqn:Hn; [|contradiction].
  eexists. split; [reflexivity|]. simpl. auto.
Qed.

(** X10.  On every reachable state the calls that move the cursor and the
    name reader are safe: [xml_reader_get_element_name] is defined, a
    start-element call is defined when the depth is below [G_MAXINT] and an
    end-element call when it is above [G_MININT].  These calls read the
    type, name, children, next and parent fields only, which every node
    kind and the document have. *)
Theorem reachable_calls_defined s :
  reachable fresh s ->
  xml_reader_get_element_name s <> None
  /\ (depth s < G_MAXINT ->
      forall nm, xml_reader_read_start_element s nm <> None)
  /\ (G_MININT < depth s -> xml_reader_read_end_element s <> None).
Proof.
  intro Hreach.
  destruct (reachable_pointers_valid s Hreach)
    as (doc & Hdoc & Hvc & Hvp & Hr).
  unfold xml_reader_get_element_name, xml_reader_read_start_element,
    xml_reader_read_end_element, scan_base, bind.
  simpl. rewrite Hdoc.
  repeat split.
  - destruct (error_state s); [discriminate|].
    destruct (node_cursor s) as [c|]; [|discriminate].
    simpl in Hvc. destruct (node_at doc c); [discriminate | contradiction].
  - intros Hd nm. destruct (error_state s); [discriminate|].
    destruct (node_cursor s) as [c|].
    + simpl in Hvc. destruct (node_at doc c) as [n|]; [|contradiction].
      destruct (find_element nm (children n) 0) as [[i node]|];
        [|discriminate].
      rewrite gint_result_in_range by lia. discriminate.
    + simpl. destruct (find_element nm (children doc) 0) as [[i node]|];
        [|discriminate].
      rewrite gint_result_in_range by lia. discriminate.
  - intros Hd. destruct (error_state s).
    + destruct (parent s) as [p|]; [|discriminate].
      simpl in Hvp. destruct (node_at doc p); [discriminate | contradiction].
    + destruct (node_cursor s) as [c|]; [|discriminate].
      rewrite gint_result_in_range by lia.
      destruct (parent s) as [p|]; [|discriminate].
      simpl in Hvp. destruct (node_at doc p); [discriminate | contradiction].
Qed.

End ReachableStates.

Lemma run_reachable fresh w : forall s s',
  reachable fresh s ->
  run w s = Some s' ->
  reachable fresh s'.
Proof.
  induction w as [|c w IH]; simpl; intros s s' Hs Hrun.
  - now injection Hrun as <-.
  - destruct (step c s) as [[b s1]|] eqn:Hstep; simpl in Hrun;
      [|discriminate Hrun].
    apply (IH s1 s'); [|exact Hrun].
    destruct c as [nm|]; simpl in Hstep.
    + exact (reachable_enter fresh s nm b s1 Hs Hstep).
    + unfold bind in Hstep.
      destruct (xml_reader_read_end_element s) as [r|] eqn:Hleave;
        [|discriminate Hstep].
      injection Hstep as _ <-.
      exact (reachable_leave fresh s r Hs Hleave).
Qed.

Lemma reachable_well_formed_witness :
  freshly_loaded fresh_book
  /\ reachable fresh_book
       (after [enter_element "book"; enter_element "author"] fresh_book)
  /\ exists doc,
       current_doc
         (after [enter_element "book"; enter_element "author"] fresh_book)
       = Some doc
       /\ current_doc fresh_book = Some doc
       /\ valid_ptr doc
            (node_cursor
               (after [enter_element "book"; enter_element "author"]
                  fresh_book))
       /\ valid_ptr doc
            (parent
               (after [enter_element "book"; enter_element "author"]
                  fresh_book))
       /\ G_MININT
          <= depth (after [enter_element "book"; enter_element "author"]
                      fresh_book)
          <= G_MAXINT.
Proof.
  assert (Hr : reachable fresh_book
                 (after [enter_element "book"; enter_element "author"]
                    fresh_book))
    by (apply (run_reachable fresh_book
                 [enter_element "book"; enter_element "author"] fresh_book);
        [apply reachable_fresh | reflexivity]).
  exact (conj fresh_book_freshly_loaded (conj Hr
    (reachable_well_formed _ fresh_book_freshly_loaded _ Hr))).
Defined.

Lemma reachable_error_state_unpositioned_witness :
  freshly_loaded fresh_book
  /\ reachable fresh_book
       (after [enter_element "book"; enter_element "missing"] fresh_book)
  /\ error_state
       (after [enter_element "book"; enter_element "missing"] fresh_book)
     = true
  /\ node_cursor
       (after [enter_element "book"; enter_element "missing"] fresh_book)
     = None
  /\ attr_cursor
       (after [enter_element "book"; enter_element "missing"] fresh_book)
     = None
  /\ xml_reader_get_element_name
       (after [enter_element "book"; enter_element "missing"] fresh_book)
     = Some None
  /\ xml_reader_has_attributes
       (after [enter_element "book"; enter_element "missing"] fresh_book)
     = Some false
  /\ xml_reader_count_attributes
       (after [enter_element "book"; enter_element "missing"] fresh_book)
     = Some (-1).
Proof.
  assert (Hr : reachable fresh_book
                 (after [enter_element "book"; enter_element "missing"]
                    fresh_book))
    by (apply (run_reachable fresh_book
                 [enter_element "book"; enter_element "missing"] fresh_book);
        [apply reachable_fresh | reflexivity]).
  assert (He : error_state
                 (after [enter_element "book"; enter_element "missing"]
                    fresh_book) = true) by reflexivity.
  exact (conj fresh_book_freshly_loaded (conj Hr (conj He
    (reachable_error_state_unpositioned _ fresh_book_freshly_loaded _
       Hr He)))).
Defined.

Lemma reachable_leave_moves_to_container_witness :
  freshly_loaded fresh_book
  /\ reachable fresh_book
       (after [enter_element "book"; enter_element "title"] fresh_book)
  /\ error_state
       (after [enter_element "book"; enter_element "title"] fresh_book)
     = false
  /\ node_cursor
       (after [enter_element "book"; enter_element "title"] fresh_book)
     = Some [1%nat; 0%nat]
  /\ G_MININT
     < depth (after [enter_element "book"; enter_element "title"] fresh_book)
  /\ exists s',
       xml_reader_read_end_element
         (after [enter_element "book"; enter_element "title"] fresh_book)
       = Some s'
       /\ node_cursor s' = Some [0%nat]
       /\ parent s' = node_parent [0%nat]
       /\ depth s'
          = depth (after [enter_element "book"; enter_element "title"]
                     fresh_book) - 1
       /\ error_state s' = false.
Proof.
  assert (Hr : reachable fresh_book
                 (after [enter_element "book"; enter_element "title"]
                    fresh_book))
    by (apply (run_reachable fresh_book
                 [enter_element "book"; enter_element "title"] fresh_book);
        [apply reachable_fresh | reflexivity]).
  assert (He : error_state
                 (after [enter_element "book"; enter_element "title"]
                    fresh_book) = false) by reflexivity.
  assert (Hc : node_cursor
                 (after [enter_element "book"; enter_element "title"]
                    fresh_book) = Some [1%nat; 0%nat]) by reflexivity.
  assert (Hd : G_MININT
               < depth (after [enter_element "book"; enter_element "title"]
                          fresh_book)) by reflexivity.
  exact (conj fresh_book_freshly_loaded (conj Hr (conj He (conj Hc (conj Hd
    (reachable_leave_moves_to_container _ fresh_book_freshly_loaded
       _ _ _ _ Hr He Hc Hd)))))).
Defined.

Lemma reachable_calls_defined_witness :
  freshly_loaded fresh_book
  /\ reachable fresh_book (after [enter_element "book"] fresh_book)
  /\ depth (after [enter_element "book"] fresh_book) < G_MAXINT
  /\ G_MININT < depth (after [enter_element "book"] fresh_book)
  /\ xml_reader_get_element_name (after [enter_element "book"] fresh_book)
     <> None
  /\ (forall nm,
        xml_reader_read_start_element
          (after [enter_element "book"] fresh_book) nm <> None)
  /\ xml_reader_read_end_element (after [enter_element "book"] fresh_book)
     <> None.
Proof.
  assert (Hr : reachable fresh_book (after [enter_element "book"] fresh_book))
    by (apply (run_reachable fresh_book [enter_element "book"] fresh_book);
        [apply reachable_fresh | reflexivity]).
  assert (Hhi : depth (after [enter_element "book"] fresh_book) < G_MAXINT)
    by reflexivity.
  assert (Hlo : G_MININT < depth (after [enter_element "book"] fresh_book))
    by reflexivity.
  destruct (reachable_calls_defined _ fresh_book_freshly_loaded _ Hr)
    as (Hn & Hs & Hl).
  exact (conj fresh_book_freshly_loaded (conj Hr (conj Hhi (conj Hlo
    (conj Hn (conj (Hs Hhi) (Hl Hlo))))))).
Defined.

(** ** Repeated failures *)

(** X11.  After a start-element call has failed on a node, any number of
    further start-element calls change nothing, and one end-element call
    still restores the cursor, with the depth it had and the error flag
    clear. *)
Theorem failed_enters_then_leave s nm s1 c names :
  error_state s = false ->
  node_cursor s = Some c ->
  xml_reader_read_start_element s nm = Some (false, s1) ->
  run (map enter_element names) s1 = Some s1
  /\ exists s2,
       run (map enter_element names ++ [leave_element]) s1 = Some s2
       /\ node_cursor s2 = Some c
       /\ error_state s2 = false
       /\ depth s2 = depth s.
Proof.
  intros He Hc Henter.
  destruct (read_start_element_false _ _ _ Henter He)
    as (doc & Hdoc & He1 & _ & _ & _ & Hp1 & Hvalid & Hd1 & Hdoc1 & _).
  rewrite Hc in Hp1.
  pose proof (run_enters_in_error names s1 He1) as Hrun.
  split; [exact Hrun|].
  destruct (read_end_element_recover_defined s1 doc He1 Hdoc1) as [s2 Hleave].
  { intros p Hp. rewrite Hp1 in Hp. injection Hp as <-. now apply Hvalid. }
  exists s2. rewrite run_app, Hrun. simpl. rewrite Hleave. simpl.
  destruct (read_end_element_recover _ _ He1 Hleave)
    as (doc' & _ & _ & He2 & _ & Hd2 & Hres & _).
  unfold restored in Hres. rewrite Hp1 in Hres. destruct Hres as [Hc2 _].
  repeat split; congruence.
Qed.

Lemma failed_enters_then_leave_witness :
  error_state in_book = false
  /\ node_cursor in_book = Some [0%nat]
  /\ xml_reader_read_start_element in_book "missing"
     = Some (false, after [enter_element "missing"] in_book)
  /\ run (map enter_element ["author"; "title"])
       (after [enter_element "missing"] in_book)
     = Some (after [enter_element "missing"] in_book)
  /\ exists s2,
       run (map enter_element ["author"; "title"] ++ [leave_element])
         (after [enter_element "missing"] in_book) = Some s2
       /\ node_cursor s2 = Some [0%nat]
       /\ error_state s2 = false
       /\ depth s2 = depth in_book.
Proof.
  assert (He : error_state in_book = false) by reflexivity.
  assert (Hc : node_cursor in_book = Some [0%nat]) by reflexivity.
  assert (Hf : xml_reader_read_start_element in_book "missing"
               = Some (false, after [enter_element "missing"] in_book))
    by reflexivity.
  exact (conj He (conj Hc (conj Hf
    (failed_enters_then_leave _ _ _ _ ["author"; "title"] He Hc Hf)))).
Defined.

(** ** Attributes by position *)

Lemma count_loop_length l : forall count,
  G_MININT <= count ->
  count + Z.of_nat (List.length l) <= G_MAXINT ->
  count_loop l count = Some (count + Z.of_nat (List.length l)).
Proof.
  induction l as [|a l IH]; intros count Hlo Hhi.
  - simpl. f_equal. lia.
  - cbn [count_loop List.length] in *. unfold bind.
    rewrite gint_result_in_range by lia.
    rewrite IH by lia. f_equal. lia.
Qed.

Lemma find_attribute_pos_hit l : forall i pos k a,
  nth_error l k = Some a ->
  G_MININT <= i ->
  i + Z.of_nat k <= G_MAXINT ->
  find_attribute_pos l (i + Z.of_nat k) i pos
  = Some (Some ((pos + k)%nat, a)).
Proof.
  induction l as [|b l IH]; intros i pos k a Hnth Hlo Hhi.
  - destruct k; discriminate Hnth.
  - destruct k as [|k]; cbn [find_attribute_pos nth_error] in *.
    + injection Hnth as ->.
      replace (i + Z.of_nat 0) with i by lia.
      rewrite Z.eqb_refl, Nat.add_0_r. reflexivity.
    + assert (Hne : (i =? i + Z.of_nat (S k)) = false)
        by (apply Z.eqb_neq; lia).
      rewrite Hne. unfold bind. rewrite gint_result_in_range by lia.
      replace (i + Z.of_nat (S k)) with (i + 1 + Z.of_nat k) by lia.
      rewrite (IH (i + 1) (S pos) k a Hnth) by lia.
      do 3 f_equal. lia.
Qed.

Lemma find_attribute_pos_miss l : forall i pos index_,
  index_ < i \/ i + Z.of_nat (List.length l) <= index_ ->
  G_MININT <= i ->
  i + Z.of_nat (List.length l) <= G_MAXINT ->
  find_attribute_pos l index_ i pos = Some None.
Proof.
  induction l as [|b l IH]; intros i pos index_ Hout Hlo Hhi.
  - reflexivity.
  - cbn [find_attribute_pos List.length] in *.
    assert (Hne : (i =? index_) = false) by (apply Z.eqb_neq; lia).
    rewrite Hne. unfold bind. rewrite gint_result_in_range by lia.
    apply IH; lia.
Qed.

Section OnAnElement.

Variables (reader : XmlReaderPrivate) (c : list nat) (doc : xmlDoc)
  (n : xmlNode).
Hypothesis Herror : error_state reader = false.
Hypothesis Hcursor : node_cursor reader = Some c.
Hypothesis Hdoc : current_doc reader = Some doc.
Hypothesis Hnode : node_at doc c = Some n.
Hypothesis Hfew : Z.of_nat (List.length (properties n)) <= G_MAXINT.

(** X12.  On a reader that is not in the error state and whose cursor is on
    a node with at most [G_MAXINT] attributes, the attribute count is the
    number of attributes of the node, and [xml_reader_has_attributes] tells
    whether it is positive. *)
Theorem count_attributes_is_length :
  xml_reader_count_attributes reader
  = Some (Z.of_nat (List.length (properties n)))
  /\ xml_reader_has_attributes reader
     = Some (0 <? Z.of_nat (List.length (properties n))).
Proof.
  unfold xml_reader_count_attributes, xml_reader_has_attributes, bind.
  simpl. rewrite Herror, Hcursor, Hdoc, Hnode.
  assert (Hcount : count_loop (properties n) 0
                   = Some (Z.of_nat (List.length (properties n))))
    by (rewrite count_loop_length;
        [reflexivity | discriminate | exact Hfew]).
  rewrite Hcount. destruct (properties n); split; reflexivity.
Qed.

Lemma read_attribute_pos_at k a :
  nth_error (properties n) k = Some a ->
  xml_reader_read_attribute_pos reader (Z.of_nat k)
  = Some (true, select_attribute reader c k (xmlGetProp n (attr_name a))).
Proof.
  intros Hnth.
  unfold xml_reader_read_attribute_pos, xml_reader_has_attributes, bind.
  simpl. rewrite Herror, Hcursor, Hdoc, Hnode.
  assert (Hlt : (k < List.length (properties n))%nat)
    by (apply nth_error_Some; congruence).
  pose proof (find_attribute_pos_hit (properties n) 0 0%nat k a Hnth)
    as Hhit.
  simpl in Hhit. rewrite Hhit by (try discriminate; lia).
  destruct (properties n); [simpl in Hlt; lia | reflexivity].
Qed.

(** X13.  On such a reader, selecting by position succeeds exactly for the
    positions of the attribute list: at the position of an attribute the
    call returns [TRUE], puts the attribute cursor there and caches the
    value [xmlGetProp] finds under that attribute's name; at a negative
    position or one past the last attribute it returns [FALSE] and leaves
    the reader, previous selection included, as it was. *)
Theorem read_attribute_pos_in_and_out_of_range :
  (forall k a,
     nth_error (properties n) k = Some a ->
     xml_reader_read_attribute_pos reader (Z.of_nat k)
     = Some (true,
             select_attribute reader c k (xmlGetProp n (attr_name a))))
  /\ (forall index_,
        index_ < 0 \/ Z.of_nat (List.length (properties n)) <= index_ ->
        xml_reader_read_attribute_pos reader index_ = Some (false, reader)).
Proof.
  split; [exact read_attribute_pos_at|].
  - intros index_ Hout.
    unfold xml_reader_read_attribute_pos, xml_reader_has_attributes, bind.
    simpl. rewrite Herror, Hcursor, Hdoc, Hnode.
    rewrite (find_attribute_pos_miss (properties n) 0 0%nat index_)
      by (try discriminate; lia).
    destruct (properties n); reflexivity.
Qed.

(** X14.  When the attribute names of the node are pairwise distinct,
    selecting the attribute at a position and selecting it by its name are
    the same call: both return [TRUE] and leave the same reader, whose
    attribute cursor is at that position and whose cached value is that
    attribute's own value. *)
Theorem read_attribute_pos_agrees_with_name k a :
  NoDup (map attr_name (properties n)) ->
  nth_error (properties n) k = Some a ->
  xml_reader_read_attribute_pos reader (Z.of_nat k)
  = Some (true, select_attribute reader c k (Some (attr_content a)))
  /\ xml_reader_read_attribute_name reader (attr_name a)
     = xml_reader_read_attribute_pos reader (Z.of_nat k).
Proof.
  intros Hnodup Hnth.
  destruct (nth_error_split _ _ Hnth) as (before & rest & Hprops & Hlen).
  assert (Hb : forall b, In b before -> attr_name b <> attr_name a).
  { intros b Hin Heq. rewrite Hprops, map_app in Hnodup. simpl in Hnodup.
    apply NoDup_remove_2 in Hnodup. apply Hnodup.
    apply in_or_app. left. rewrite <- Heq. now apply in_map. }
  assert (Hget : xmlGetProp n (attr_name a) = Some (attr_content a)).
  { unfold xmlGetProp. rewrite Hprops.
    now apply xmlGetProp_list_first. }
  rewrite (read_attribute_pos_at k a Hnth), Hget. split; [reflexivity|].
  unfold xml_reader_read_attribute_name, xml_reader_has_attributes, bind.
  simpl. rewrite Herror, Hcursor, Hdoc, Hnode.
  unfold xmlGetProp. rewrite Hprops.
  rewrite (find_attribute_name_first _ before a rest 0%nat eq_refl Hb).
  rewrite (xmlGetProp_list_first _ before a rest eq_refl Hb).
  simpl. rewrite Hlen. destruct before; reflexivity.
Qed.

End OnAnElement.

Lemma count_attributes_is_length_witness :
  error_state in_node = false
  /\ node_cursor in_node = Some [0%nat]
  /\ current_doc in_node = Some node_doc
  /\ node_at node_doc [0%nat] = Some node_element
  /\ Z.of_nat (List.length (properties node_element)) <= G_MAXINT
  /\ xml_reader_count_attributes in_node
     = Some (Z.of_nat (List.length (properties node_element)))
  /\ xml_reader_has_attributes in_node
     = Some (0 <? Z.of_nat (List.length (properties node_element))).
Proof.
  assert (He : error_state in_node = false) by reflexivity.
  assert (Hc : node_cursor in_node = Some [0%nat]) by reflexivity.
  assert (Hd : current_doc in_node = Some node_doc) by reflexivity.
  assert (Hn : node_at node_doc [0%nat] = Some node_element) by reflexivity.
  assert (Hf : Z.of_nat (List.length (properties node_element)) <= G_MAXINT)
    by discriminate.
  exact (conj He (conj Hc (conj Hd (conj Hn (conj Hf
    (count_attributes_is_length in_node [0%nat] node_doc node_element
       He Hc Hd Hn Hf)))))).
Defined.

Lemma read_attribute_pos_in_and_out_of_range_witness :
  error_state in_node = false
  /\ node_cursor in_node = Some [0%nat]
  /\ current_doc in_node = Some node_doc
  /\ node_at node_doc [0%nat] = Some node_element
  /\ Z.of_nat (List.length (properties node_element)) <= G_MAXINT
  /\ nth_error (properties node_element) 1 = Some (mkAttr "dir" "rtl")
  /\ xml_reader_read_attribute_pos in_node (Z.of_nat 1)
     = Some (true,
             select_attribute in_node [0%nat] 1
               (xmlGetProp node_element (attr_name (mkAttr "dir" "rtl"))))
  /\ xml_reader_read_attribute_pos in_node 2 = Some (false, in_node)
  /\ xml_reader_read_attribute_pos in_node (-1) = Some (false, in_node).
Proof.
  assert (He : error_state in_node = false) by reflexivity.
  assert (Hc : node_cursor in_node = Some [0%nat]) by reflexivity.
  assert (Hd : current_doc in_node = Some node_doc) by reflexivity.
  assert (Hn : node_at node_doc [0%nat] = Some node_element) by reflexivity.
  assert (Hf : Z.of_nat (List.length (properties node_element)) <= G_MAXINT)
    by discriminate.
  assert (Hk : nth_error (properties node_element) 1
               = Some (mkAttr "dir" "rtl")) by reflexivity.
  destruct (read_attribute_pos_in_and_out_of_range in_node [0%nat] node_doc
              node_element He Hc Hd Hn Hf) as [Hin Hout].
  assert (H2 : 2 < 0 \/ Z.of_nat (List.length (properties node_element)) <= 2)
    by (right; discriminate).
  assert (Hm : -1 < 0 \/ Z.of_nat (List.length (properties node_element))
                         <= -1)
    by (left; reflexivity).
  exact (conj He (conj Hc (conj Hd (conj Hn (conj Hf (conj Hk
    (conj (Hin 1%nat _ Hk) (conj (Hout 2 H2) (Hout (-1) Hm))))))))).
Defined.

Lemma node_element_names_distinct :
  NoDup (map attr_name (properties node_element)).
Proof.
  simpl. constructor.
  - intros [H|[]]. discriminate H.
  - constructor; [intros [] | constructor].
Defined.

Lemma read_attribute_pos_agrees_with_name_witness :
  error_state in_node = false
  /\ node_cursor in_node = Some [0%nat]
  /\ current_doc in_node = Some node_doc
  /\ node_at node_doc [0%nat] = Some node_element
  /\ Z.of_nat (List.length (properties node_element)) <= G_MAXINT
  /\ NoDup (map attr_name (properties node_element))
  /\ nth_error (properties node_element) 1 = Some (mkAttr "dir" "rtl")
  /\ xml_reader_read_attribute_pos in_node (Z.of_nat 1)
     = Some (true,
             select_attribute in_node [0%nat] 1
               (Some (attr_content (mkAttr "dir" "rtl"))))
  /\ xml_reader_read_attribute_name in_node (attr_name (mkAttr "dir" "rtl"))
     = xml_reader_read_attribute_pos in_node (Z.of_nat 1).
Proof.
  assert (He : error_state in_node = false) by reflexivity.
  assert (Hc : node_cursor in_node = Some [0%nat]) by reflexivity.
  assert (Hd : current_doc in_node = Some node_doc) by reflexivity.
  assert (Hn : node_at node_doc [0%nat] = Some node_element) by reflexivity.
  assert (Hf : Z.of_nat (List.length (properties node_element)) <= G_MAXINT)
    by discriminate.
  assert (Hk : nth_error (properties node_element) 1
               = Some (mkAttr "dir" "rtl")) by reflexivity.
  exact (conj He (conj Hc (conj Hd (conj Hn (conj Hf
    (conj node_element_names_distinct (conj Hk
      (read_attribute_pos_agrees_with_name in_node [0%nat] node_doc
         node_element He Hc Hd Hn Hf 1%nat _
         node_element_names_distinct Hk)))))))).
Defined.

(** Without the distinctness the value cached is the one of the first
    attribute with the name, not of the attribute at the position. *)
Example read_attribute_pos_duplicate_name :
  let n := element "e" [mkAttr "k" "first"; mkAttr "k" "second"] [] in
  let r := after [enter_element "e"]
             match xml_reader_load_from_data (fun _ => Some (document [n]))
                     (xml_reader_init XML_READER_ERROR_INVALID) "" None with
             | Some (_, _, r0) => r0
             | None => xml_reader_init XML_READER_ERROR_INVALID
             end in
  exists r',
    xml_reader_read_attribute_pos r 1 = Some (true, r')
    /\ attr_cursor r' = Some ([0%nat], 1%nat)
    /\ xml_reader_get_attribute_value r' = Some "first".
Proof. simpl. eexists. repeat split; reflexivity. Qed.

(** X15.  Selecting an attribute, by position or by name, never moves the
    cursor and never touches the saved parent, the depth, the error flag,
    the last error, the document or the cached element value; when it
    returns [FALSE] the reader is unchanged altogether. *)
Theorem attribute_selection_frame reader b r' :
  (exists index_,
     xml_reader_read_attribute_pos reader index_ = Some (b, r'))
  \/ (exists nm, xml_reader_read_attribute_name reader nm = Some (b, r')) ->
  node_cursor r' = node_cursor reader
  /\ parent r' = parent reader
  /\ depth r' = depth reader
  /\ error_state r' = error_state reader
  /\ last_error r' = last_error reader
  /\ current_doc r' = current_doc reader
  /\ cursor_value r' = cursor_value reader
  /\ (b = false -> r' = reader).
Proof.
  intros [[index_ H]|[nm H]]; revert H;
    unfold xml_reader_read_attribute_pos, xml_reader_read_attribute_name,
      bind; simpl; intro H;
    break_all H; injection H as <- <-;
    repeat split; simpl; try congruence; intro; congruence.
Qed.

Lemma attribute_selection_frame_witness :
  ((exists index_,
      xml_reader_read_attribute_pos in_node index_
      = Some (true, select_attribute in_node [0%nat] 0 (Some "admin")))
   \/ (exists nm,
         xml_reader_read_attribute_name in_node nm
         = Some (true, select_attribute in_node [0%nat] 0 (Some "admin"))))
  /\ node_cursor (select_attribute in_node [0%nat] 0 (Some "admin"))
     = node_cursor in_node
  /\ parent (select_attribute in_node [0%nat] 0 (Some "admin"))
     = parent in_node
  /\ depth (select_attribute in_node [0%nat] 0 (Some "admin"))
     = depth in_node
  /\ error_state (select_attribute in_node [0%nat] 0 (Some "admin"))
     = error_state in_node
  /\ last_error (select_attribute in_node [0%nat] 0 (Some "admin"))
     = last_error in_node
  /\ current_doc (select_attribute in_node [0%nat] 0 (Some "admin"))
     = current_doc in_node
  /\ cursor_value (select_attribute in_node [0%nat] 0 (Some "admin"))
     = cursor_value in_node
  /\ (true = false
      -> select_attribute in_node [0%nat] 0 (Some "admin") = in_node).
Proof.
  assert (H : (exists index_,
                 xml_reader_read_attribute_pos in_node index_
                 = Some (true,
                         select_attribute in_node [0%nat] 0 (Some "admin")))
              \/ (exists nm,
                    xml_reader_read_attribute_name in_node nm
                    = Some (true,
                            select_attribute in_node [0%nat] 0
                              (Some "admin"))))
    by (right; exists "role"; reflexivity).
  exact (conj H (attribute_selection_frame _ _ _ H)).
Defined.

(** ** Loading *)

Lemma format_without_arguments_plain s :
  no_percent s = true -> format_without_arguments s = Some s.
Proof.
  induction s as [|ch rest IH]; simpl; intro H; [reflexivity|].
  apply andb_true_iff in H. destruct H as [Hch Hrest].
  rewrite (IH Hrest). simpl.
  destruct ch as [[] [] [] [] [] [] [] []]; try reflexivity;
    discriminate Hch.
Qed.

Lemma no_percent_append a b :
  no_percent (a ++ b) = no_percent a && no_percent b.
Proof.
  induction a as [|ch a IH]; simpl; [reflexivity|].
  now rewrite IH, andb_assoc.
Qed.

Lemma format_file_message file :
  no_percent file = true ->
  format_without_arguments ("Unable to parse file `" ++ file ++ "'")
  = Some ("Unable to parse file `" ++ file ++ "'").
Proof.
  intro H. apply format_without_arguments_plain.
  rewrite !no_percent_append, H. reflexivity.
Qed.

(** A [%] in the file name is taken for a conversion when the message is
    formatted: doubled it prints once, followed by a letter it makes the
    call undefined. *)
Example format_file_message_percent :
  format_without_arguments ("Unable to parse file `" ++ "a%%b.xml" ++ "'")
  = Some "Unable to parse file `a%b.xml'"
  /\ format_without_arguments ("Unable to parse file `" ++ "%s.xml" ++ "'")
     = None.
Proof. split; reflexivity. Qed.

Lemma parse_error_message_file r file :
  is_filename r = true ->
  filename r = Some file ->
  parse_error_message (xml_reader_clear r)
  = "Unable to parse file `" ++ file ++ "'".
Proof.
  intros Hf Hn. unfold parse_error_message, xml_reader_clear.
  cbn [is_filename filename]. now rewrite Hf, Hn.
Qed.

Lemma g_set_error_empty dom c format msg :
  format_without_arguments format = Some msg ->
  g_set_error (Some None) dom c format
  = Some (Some (Some (mkGError dom c msg))).
Proof. intro H. unfold g_set_error, bind. now rewrite H. Qed.

Section Loading.

Context {FileError : Type}.
Variable g_file_get_contents : string -> FileError + string.
Variable xmlReadMemory : string -> option xmlDoc.



(** X18.  When the buffer does not parse, a [xml_reader_load_from_data] that
    returns has returned [FALSE] with both caches reset and no document, but
    with the cursor, the saved parent and the error flag the reader had; a
    start-element call on that reader, outside the error state, has no
    defined behaviour: it dereferences the missing document or a pointer
    into the released one.  The call does return when the reader was never
    loaded from a file: an empty error location then receives the parse
    error about the buffer. *)
Theorem load_from_data_parse_error reader buffer error :
  xmlReadMemory buffer = None ->
  (forall b error' r',
     xml_reader_load_from_data xmlReadMemory reader buffer error
     = Some (b, error', r') ->
     b = false
     /\ current_doc r' = None
     /\ node_cursor r' = node_cursor reader
     /\ parent r' = parent reader
     /\ error_state r' = error_state reader
     /\ xml_reader_get_element_value r' = None
     /\ xml_reader_get_attribute_value r' = None
     /\ (error_state reader = false ->
         forall nm, xml_reader_read_start_element r' nm = None))
  /\ (is_filename reader = false ->
      exists error' r',
        xml_reader_load_from_data xmlReadMemory reader buffer error
        = Some (false, error', r')
        /\ (error = Some None ->
            error'
            = Some (Some (mkGError XML_READER_ERROR XML_READER_ERROR_INVALID
                            "Unable to parse XML buffer")))).
Proof.
  intro Hparse. unfold xml_reader_load_from_data. cbv zeta. rewrite Hparse.
  split.
  - intros b error' r' H. unfold bind in H.
    destruct (g_set_error _ _ _ _) as [e|]; [|discriminate H].
    injection H as <- _ <-.
    unfold xml_reader_get_element_value, xml_reader_get_attribute_value,
      xml_reader_read_start_element, bind.
    simpl. repeat split; try reflexivity.
    + now destruct (error_state reader).
    + intros He nm. now rewrite He.
  - intro Hfile. unfold parse_error_message, g_set_error, bind. simpl.
    rewrite Hfile. destruct error as [[e|]|]; simpl;
      do 2 eexists; (split; [reflexivity|]); intro H;
      try discriminate H; reflexivity.
Qed.

End Loading.



(** The reader on the root of the book document, after a buffer that does
    not parse. *)
Lemma load_from_data_parse_error_witness :
  sample_parser "<" = None
  /\ is_filename in_book = false
  /\ error_state in_book = false
  /\ exists error' r',
       xml_reader_load_from_data sample_parser in_book "<" (Some None)
       = Some (false, error', r')
       /\ error'
          = Some (Some (mkGError XML_READER_ERROR XML_READER_ERROR_INVALID
                          "Unable to parse XML buffer"))
       /\ current_doc r' = None
       /\ node_cursor r' = node_cursor in_book
       /\ parent r' = parent in_book
       /\ error_state r' = error_state in_book
       /\ xml_reader_get_element_value r' = None
       /\ xml_reader_get_attribute_value r' = None
       /\ forall nm, xml_reader_read_start_element r' nm = None.
Proof.
  assert (Hp : sample_parser "<" = None) by reflexivity.
  assert (Hf : is_filename in_book = false) by reflexivity.
  assert (He : error_state in_book = false) by reflexivity.
  destruct (load_from_data_parse_error sample_parser in_book "<" (Some None)
              Hp) as [Hany Hdefined].
  destruct (Hdefined Hf) as (error' & r' & Hload & Herr).
  destruct (Hany false error' r' Hload)
    as (_ & Hd & Hc & Hpa & Her & Hv & Ha & Hs).
  exact (conj Hp (conj Hf (conj He (ex_intro _ error' (ex_intro _ r'
    (conj Hload (conj (Herr eq_refl) (conj Hd (conj Hc (conj Hpa (conj Her
      (conj Hv (conj Ha (Hs He)))))))))))))).
Defined.
